(** * Neo4j vector-store adapter (server/utils/vectorDbProviders/neo4j/index.js)

    A shallow embedding of the [Neo4jDB] object.  JavaScript [async]
    functions become computations in a state-and-exception monad [M]:
    the state holds the backing engine's graph ([DB]), the lazily created
    [driver] and the trace of external calls (embedder calls and the
    Cypher statements issued through [session.run]).  Each Cypher
    statement is given its meaning on [DB] by a pure function.  The
    engine's own library functions ([gds.similarity.cosine], the edges
    written by [gds.knn.write]) and the external collaborators (embedder,
    text splitter, vector cache) are fields of the environment [Env].

    Scores are rationals [Q]; a Cypher [null] is [None]. *)

From Stdlib Require Import List String Bool Arith Lia QArith.
From Stdlib Require Import Sorting.Sorted.
Import ListNotations.

Local Open Scope string_scope.
Local Open Scope list_scope.

(** ** JavaScript values used by the adapter *)

(** Completion of a JavaScript computation: a value, or a thrown error
    carrying its [message]. *)
Inductive Completion (A : Type) : Type :=
| Normal (a : A)
| Throw (e : string).
Arguments Normal {A} a.
Arguments Throw {A} e.

(** A parsed JSON metadata object (string-valued fields). *)
Definition Meta := list (string * string).

Fixpoint meta_get (k : string) (m : Meta) : option string :=
  match m with
  | [] => None
  | (k', v) :: m' => if String.eqb k k' then Some v else meta_get k m'
  end.

(** [{...m, k: v}]: the key keeps its place when present, else is appended. *)
Fixpoint meta_set (k v : string) (m : Meta) : Meta :=
  match m with
  | [] => [(k, v)]
  | (k', v') :: m' =>
      if String.eqb k k' then (k, v) :: m' else (k', v') :: meta_set k v m'
  end.

Definition meta_remove (k : string) (m : Meta) : Meta :=
  filter (fun kv => negb (String.eqb k (fst kv))) m.

(** ** The backing engine's graph *)

(** A [:Chunk] node.  [pageContent] and [embedding] are [None] when the
    property is absent (Cypher [null]). *)
Record Node := mkNode {
  nid : nat;
  labels : list string;
  docId : string;
  chunkId : nat;
  pageContent : option string;
  metadata : Meta;
  embedding : option (list Q)
}.

(** A [SIMILAR_TO] relationship with its [similarity] property. *)
Record Rel := mkRel {
  rid : nat;
  rsrc : nat;
  rdst : nat;
  similarity : Q
}.

Record DB := mkDB {
  nodes : list Node;
  rels : list Rel;
  graphProjected : bool;          (** the GDS in-memory graph 'chunkGraph' *)
  vectorIndex : option nat;       (** 'chunkEmbeddingIndex' and its dimension *)
  next_nid : nat
}.

Definition has_label (l : string) (n : Node) : bool :=
  existsb (String.eqb l) (labels n).

(** [MATCH (c:Chunk:ns)] and [MATCH (n:Chunk) WHERE $namespace IN labels(n)] *)
Definition in_ns (ns : string) (n : Node) : bool :=
  has_label "Chunk" n && has_label ns n.

Definition find_node (db : DB) (i : nat) : option Node :=
  find (fun n => Nat.eqb (nid n) i) (nodes db).

(** ** Cypher null arithmetic and ordering *)

Definition cadd (a b : option Q) : option Q :=
  match a, b with Some x, Some y => Some (x + y) | _, _ => None end.

Definition cmul (a b : option Q) : option Q :=
  match a, b with Some x, Some y => Some (x * y) | _, _ => None end.

Definition cdiv (a : option Q) (n : nat) : option Q :=
  match a with Some x => Some (x / inject_Z (Z.of_nat n)) | None => None end.

(** [ORDER BY k DESC]: [null] sorts first in a descending order. *)
Definition cypher_desc (a b : option Q) : bool :=
  match a, b with
  | None, _ => true
  | Some _, None => false
  | Some x, Some y => Qle_bool y x
  end.

(** The sort of an [ORDER BY]: a stable insertion sort with the
    "may come first" test [before]; ties keep the match order. *)
Section Sort.
Context {A : Type} (before : A -> A -> bool).

Fixpoint insert_by (x : A) (l : list A) : list A :=
  match l with
  | [] => [x]
  | y :: l' => if before x y then x :: y :: l' else y :: insert_by x l'
  end.

Fixpoint sort_by (l : list A) : list A :=
  match l with
  | [] => []
  | x :: l' => insert_by x (sort_by l')
  end.
End Sort.

(** ** Statements issued through [session.run] *)

Inductive Request : Type :=
| QGraphExists                          (** CALL gds.graph.exists('chunkGraph') *)
| QGraphDrop                            (** CALL gds.graph.drop('chunkGraph') *)
| QGraphProject                         (** projectGraph: CALL gds.graph.project(...) *)
| QDeleteSimilar                        (** MATCH ()-[r:SIMILAR_TO]->() DELETE r *)
| QKnnWrite (k : nat)                   (** CALL gds.knn.write('chunkGraph', {topK: k, ...}) *)
| QEmbeddingDim                         (** getEmbeddingDimensions *)
| QCreateVectorIndex (dim : nat)        (** db.index.vector.createNodeIndex(...) *)
| QHasNamespace (ns : string)
| QNamespaceCount (ns : string)
| QCreateChunk (ns d : string) (cid : nat) (pc : option string) (m : Meta) (e : list Q)
| QDeleteDoc (ns d : string)
| QSearch (ns : string) (qv : list Q) (t : Q) (topN knnDepth : nat)
| QReturnOne                            (** heartbeat: RETURN 1 *)
| QDeleteAll                            (** reset: MATCH (n) DETACH DELETE n *)
| QKnnWriteCutoff.                      (** gds.knn.write('chunkGraph', {topK: 5, similarityCutoff: 0.5, ...}) *)

(** External calls, in the order they happen. *)
Inductive Event : Type :=
| EVerifyConnectivity
| ERun (r : Request)                    (** session.run *)
| EEmbedQuery (input : string)          (** LLMConnector.embedTextInput *)
| EEmbedChunks (texts : list string)    (** EmbedderEngine.embedChunks *)
| EStoreVectorResult                    (** storeVectorResult *)
| EPipeline.                            (** entry of updateGraphAndRelationships *)

(** ** The environment: engine library functions and collaborators *)

Record Env := mkEnv {
  env_VECTOR_DB : string;                                  (** process.env.VECTOR_DB *)
  connectivity : option string;                            (** verifyConnectivity failure *)
  run_fails : Request -> option string;                    (** a failing session.run *)
  cosine : list Q -> list Q -> Q;                          (** gds.similarity.cosine *)
  knn : list Node -> nat -> list Rel;                      (** edges written by gds.knn.write *)
  embedTextInput : string -> Completion (list Q);          (** LLMConnector.embedTextInput *)
  embedChunks : list string -> Completion (option (list (list Q)));
                                                           (** None: undefined result *)
  splitText : string -> list string;                       (** TextSplitter.splitText *)
  cachedVectorInformation : option string -> option (list (Meta * list Q))
                                                           (** Some chunks: exists *)
}.

(** ** The enhanced similarity query (performEnhancedSimilaritySearch) *)

(** Relationship [r] traversed undirected from [cur]. *)
Definition other_end (r : Rel) (cur : nat) : option nat :=
  if Nat.eqb (rsrc r) cur then Some (rdst r)
  else if Nat.eqb (rdst r) cur then Some (rsrc r)
  else None.

(** [(cur)-[r:SIMILAR_TO*1..fuel]-(end)]: every path of 1 to [fuel]
    relationships, none used twice in a path, with its end node id. *)
Fixpoint paths (rs : list Rel) (fuel : nat) (used : list nat) (cur : nat)
  : list (list Rel * nat) :=
  match fuel with
  | O => []
  | S f =>
      flat_map (fun r =>
        if existsb (Nat.eqb (rid r)) used then []
        else match other_end r cur with
             | None => []
             | Some nx =>
                 ([r], nx) :: map (fun pe => (r :: fst pe, snd pe))
                                  (paths rs f (rid r :: used) nx)
             end) rs
  end.

(** One row of the query result. *)
Record Row := mkRow {
  contextText : option string;
  sourceDocument : Meta;
  vectorSimilarity : Q;
  knnSimilarity : option Q;
  combinedScore : option Q;
  relatedContexts : list (option string)
}.

Section Query.
Variables (env : Env) (db : DB) (ns : string) (qv : list Q) (t : Q)
          (topN knnDepth : nat).

(** [MATCH (n:Chunk) WHERE $namespace IN labels(n)
     WITH n, gds.similarity.cosine(n.embedding, $queryVector) AS similarity
     WHERE similarity >= $similarityThreshold]
    (a [null] embedding gives a [null] similarity, which the WHERE drops). *)
Definition direct_matches : list (Node * Q) :=
  filter (fun p => Qle_bool t (snd p))
    (flat_map (fun n =>
       if in_ns ns n then
         match embedding n with
         | Some e => [(n, cosine env e qv)]
         | None => []
         end
       else []) (nodes db)).

(** [ORDER BY similarity DESC LIMIT $topN] *)
Definition stage1 : list (Node * Q) :=
  firstn topN (sort_by (fun a b => Qle_bool (snd b) (snd a)) direct_matches).

(** [OPTIONAL MATCH (n)-[r:SIMILAR_TO*1..knnDepth]-(relatedNode:Chunk)
     WHERE ALL(rel IN r WHERE rel.similarity >= $similarityThreshold)] *)
Definition related_paths (n : Node) : list (list Rel * Node) :=
  flat_map (fun pe =>
    if forallb (fun r => Qle_bool t (similarity r)) (fst pe) then
      match find_node db (snd pe) with
      | Some m => if has_label "Chunk" m then [(fst pe, m)] else []
      | None => []
      end
    else []) (paths (rels db) knnDepth [] (nid n)).

Definition path_similarity (p : list Rel) : Q :=
  fold_left (fun s r => s * similarity r) p 1.

(** [collect({node: relatedNode, pathSimilarity: reduce(s = 1.0, rel IN r | ...)})].
    When the OPTIONAL MATCH finds nothing it yields one row with
    [relatedNode] and [r] null; [reduce] over a null list is null, and the
    map [{node: null, pathSimilarity: null}] is not itself null, so
    [collect] keeps it. *)
Definition relatedNodes (n : Node) : list (option Node * option Q) :=
  match related_paths n with
  | [] => [(None, None)]
  | ps => map (fun pm => (Some (snd pm), Some (path_similarity (fst pm)))) ps
  end.

(** [CASE WHEN size(relatedNodes) > 0
          THEN reduce(s = 0, x IN relatedNodes | s + x.pathSimilarity) / size(relatedNodes)
          ELSE 0 END] *)
Definition avgKNNScore (rn : list (option Node * option Q)) : option Q :=
  if Nat.ltb 0 (List.length rn)
  then cdiv (fold_left (fun s x => cadd s (snd x)) rn (Some 0)) (List.length rn)
  else Some 0.

Definition mk_row (p : Node * Q) : Row :=
  let n := fst p in
  let d := snd p in
  let rn := relatedNodes n in
  let avg := avgKNNScore rn in
  {| contextText := pageContent n;
     sourceDocument := metadata n;
     vectorSimilarity := d;
     knnSimilarity := avg;
     combinedScore := cadd (Some (d * (7 # 10))) (cmul avg (Some (3 # 10)));
     relatedContexts :=
       map (fun x => match fst x with Some m => pageContent m | None => None end) rn |}.

(** [ORDER BY combinedScore DESC LIMIT $topN] *)
Definition search_query : list Row :=
  firstn topN (sort_by (fun a b => cypher_desc (combinedScore a) (combinedScore b))
                       (map mk_row stage1)).
End Query.

(** ** Meaning of each statement on the engine's graph *)

Definition set_nodes (db : DB) (ns : list Node) : DB :=
  mkDB ns (rels db) (graphProjected db) (vectorIndex db) (next_nid db).
Definition set_rels (db : DB) (rs : list Rel) : DB :=
  mkDB (nodes db) rs (graphProjected db) (vectorIndex db) (next_nid db).
Definition set_projected (db : DB) (b : bool) : DB :=
  mkDB (nodes db) (rels db) b (vectorIndex db) (next_nid db).
Definition set_vectorIndex (db : DB) (d : option nat) : DB :=
  mkDB (nodes db) (rels db) (graphProjected db) d (next_nid db).

Definition count_ns (db : DB) (ns : string) : nat :=
  List.length (filter (in_ns ns) (nodes db)).

Definition sem_graph_exists (env : Env) (db : DB) : Completion (DB * bool) :=
  Normal (db, graphProjected db).

Definition sem_graph_drop (env : Env) (db : DB) : Completion (DB * unit) :=
  if graphProjected db then Normal (set_projected db false, tt)
  else Throw "Graph with name 'chunkGraph' does not exist".

Definition sem_graph_project (env : Env) (db : DB) : Completion (DB * unit) :=
  if graphProjected db then Throw "A graph with name 'chunkGraph' already exists"
  else Normal (set_projected db true, tt).

Definition sem_delete_similar (env : Env) (db : DB) : Completion (DB * unit) :=
  Normal (set_rels db [], tt).

Definition sem_knn_write (k : nat) (env : Env) (db : DB) : Completion (DB * unit) :=
  if graphProjected db then Normal (set_rels db (rels db ++ knn env (nodes db) k), tt)
  else Throw "Graph with name 'chunkGraph' does not exist".

(** [MATCH (c:Chunk) WHERE c.embedding IS NOT NULL
     WITH size(c.embedding) AS embeddingDim LIMIT 1 RETURN embeddingDim];
    [None]: no record. *)
Definition sem_embedding_dim (env : Env) (db : DB) : Completion (DB * option nat) :=
  Normal (db,
    match find (fun n => has_label "Chunk" n && match embedding n with Some _ => true | None => false end) (nodes db) with
    | Some n => option_map (@List.length Q) (embedding n)
    | None => None
    end).

Definition sem_create_index (dim : nat) (env : Env) (db : DB) : Completion (DB * unit) :=
  match vectorIndex db with
  | None => Normal (set_vectorIndex db (Some dim), tt)
  | Some d =>
      if Nat.eqb d dim then Throw "An equivalent index already exists"
      else Throw "There already exists an index called 'chunkEmbeddingIndex'"
  end.

Definition sem_count (ns : string) (env : Env) (db : DB) : Completion (DB * nat) :=
  Normal (db, count_ns db ns).

(** [CREATE (c:Chunk:ns {docId, chunkId, pageContent, metadata, embedding})] *)
Definition sem_create_chunk (ns d : string) (cid : nat) (pc : option string) (m : Meta)
  (e : list Q) (env : Env) (db : DB) : Completion (DB * unit) :=
  Normal (mkDB (nodes db ++ [mkNode (next_nid db) ["Chunk"; ns] d cid pc m (Some e)])
               (rels db) (graphProjected db) (vectorIndex db) (S (next_nid db)), tt).

(** [MATCH (c:Chunk:ns {docId: $docId}) DETACH DELETE c RETURN count(c)] *)
Definition sem_delete_doc (ns d : string) (env : Env) (db : DB) : Completion (DB * nat) :=
  let del n := in_ns ns n && String.eqb (docId n) d in
  let gone := map nid (filter del (nodes db)) in
  Normal (mkDB (filter (fun n => negb (del n)) (nodes db))
               (filter (fun r => negb (existsb (Nat.eqb (rsrc r)) gone
                                       || existsb (Nat.eqb (rdst r)) gone)) (rels db))
               (graphProjected db) (vectorIndex db) (next_nid db),
          List.length gone).

Definition sem_search (ns : string) (qv : list Q) (t : Q) (topN knnDepth : nat)
  (env : Env) (db : DB) : Completion (DB * list Row) :=
  Normal (db, search_query env db ns qv t topN knnDepth).

(** ** The adapter's monad: environment, state, exceptions *)

Record World := mkWorld {
  db : DB;
  driver : bool;              (** this.driver !== null *)
  trace : list Event;
  uuid : nat                  (** source of uuidv4() values *)
}.

Definition M (A : Type) : Type := Env -> World -> World * Completion A.

Definition ret {A} (a : A) : M A := fun _ w => (w, Normal a).
Definition throw {A} (e : string) : M A := fun _ w => (w, Throw e).
Definition bind {A B} (m : M A) (k : A -> M B) : M B :=
  fun env w =>
    match m env w with
    | (w', Normal a) => k a env w'
    | (w', Throw e) => (w', Throw e)
    end.
(** [try { m } catch (e) { h(e) }] *)
Definition try_catch {A} (m : M A) (h : string -> M A) : M A :=
  fun env w =>
    match m env w with
    | (w', Throw e) => h e env w'
    | r => r
    end.
Definition ask : M Env := fun env w => (w, Normal env).
Definition lift {A} (c : Completion A) : M A := fun _ w => (w, c).
Definition emit (e : Event) : M unit :=
  fun _ w => (mkWorld (db w) (driver w) (trace w ++ [e]) (uuid w), Normal tt).
Definition set_driver : M unit :=
  fun _ w => (mkWorld (db w) true (trace w) (uuid w), Normal tt).
Definition uuidv4 : M nat :=
  fun _ w => (mkWorld (db w) (driver w) (trace w) (S (uuid w)), Normal (uuid w)).

Declare Scope m_scope.
Delimit Scope m_scope with m.
Notation "x <- m ;; k" := (bind m (fun x => k))
  (at level 61, m at next level, right associativity) : m_scope.
Notation "m ;; k" := (bind m (fun _ => k))
  (at level 61, right associativity) : m_scope.
Local Open Scope m_scope.

(** [await session.run(statement)]: recorded in the trace; it fails when
    the engine reports an error, else its meaning is applied to the graph. *)
Definition run {A} (r : Request) (sem : Env -> DB -> Completion (DB * A)) : M A :=
  fun env w =>
    let w1 := mkWorld (db w) (driver w) (trace w ++ [ERun r]) (uuid w) in
    match run_fails env r with
    | Some e => (w1, Throw e)
    | None =>
        match sem env (db w1) with
        | Normal (d', a) => (mkWorld d' (driver w1) (trace w1) (uuid w1), Normal a)
        | Throw e => (w1, Throw e)
        end
    end.

(** [String.prototype.includes] *)
Definition includes (hay needle : string) : bool :=
  match String.index 0 needle hay with Some _ => true | None => false end.

(** ** Index/Graph maintenance

    Each function takes the [getSession] it calls as [gs]: [getSession]
    may run [initialize], which calls these functions again (see
    [getSession_fuel] below). *)

Section Maintenance.
Variable gs : M unit.

(** [projectGraph(session)] *)
Definition projectGraph : M unit := run QGraphProject sem_graph_project.

(** [getEmbeddingDimensions]: [records[0]?.get('embeddingDim') || null];
    a dimension 0 is falsy and becomes [null] too. *)
Definition getEmbeddingDimensions : M (option nat) :=
  gs ;;
  r <- run QEmbeddingDim sem_embedding_dim ;;
  ret (match r with Some (S k) => Some (S k) | _ => None end).

Definition createOrUpdateVectorIndex : M unit :=
  gs ;;
  try_catch
    (embeddingDim <- getEmbeddingDimensions ;;
     match embeddingDim with
     | None => ret tt          (* "No embeddings found. Skipping vector index creation." *)
     | Some d =>
         try_catch (run (QCreateVectorIndex d) (sem_create_index d))
           (fun indexError =>
              if includes indexError "An equivalent index already exists"
              then ret tt else throw indexError)
     end)
    (fun _ => ret tt).         (* console.error("Error creating vector index:", error) *)

Definition createKNNRelationships (k : nat) : M unit :=
  gs ;;
  try_catch
    (run QDeleteSimilar sem_delete_similar ;;
     run (QKnnWrite k) (sem_knn_write k))
    (fun _ => ret tt).

Definition updateGraphAndRelationships : M unit :=
  emit EPipeline ;;
  gs ;;
  try_catch
    (createOrUpdateVectorIndex ;;
     graphExists <- run QGraphExists sem_graph_exists ;;
     (if graphExists then run QGraphDrop sem_graph_drop else ret tt) ;;
     projectGraph ;;
     createKNNRelationships 5)
    (fun _ => ret tt).         (* console.error("Error updating graph and relationships:", error) *)

Definition verifyConnectivity : M unit :=
  emit EVerifyConnectivity ;;
  env <- ask ;;
  match connectivity env with Some e => throw e | None => ret tt end.

(** [initialize]: [this.driver] is assigned before [verifyConnectivity]
    is awaited.  The catch rethrows [handleError(error, ...)], an object
    [{error: message}]; it is kept here as the message. *)
Definition initialize : M unit :=
  env <- ask ;;
  if negb (String.eqb (env_VECTOR_DB env) "neo4j") then throw "Neo4j::Invalid ENV settings"
  else
    set_driver ;;
    try_catch
      (verifyConnectivity ;;
       gs ;;
       graphExists <- run QGraphExists sem_graph_exists ;;
       (if negb graphExists then projectGraph else ret tt) ;;
       updateGraphAndRelationships)
      (fun e => throw e).
End Maintenance.

(** [getSession]: [if (!this.driver) await this.initialize()].  The calls
    of [getSession] made inside [initialize] find [this.driver] already
    set (it is assigned first), so one level of unfolding is exact; the
    [O] branch is never reached from [getSession]. *)
Fixpoint getSession_fuel (n : nat) : M unit :=
  fun env w =>
    if driver w then (w, Normal tt)
    else match n with
         | O => (w, Throw "Neo4j::driver not initialized")
         | S n' => initialize (getSession_fuel n') env w
         end.

Definition getSession : M unit := getSession_fuel 1.

(** ** Namespace store *)

(** Values returned by the namespace operations: [{error: message}] is
    [JError message]. *)
Inductive JsVal : Type :=
| JBool (b : bool)
| JNum (n : nat)
| JError (msg : string).

(** [value === 0] *)
Definition js_strict_eq_zero (v : JsVal) : bool :=
  match v with JNum 0 => true | _ => false end.

Definition hasNamespace (ns : string) : M JsVal :=
  getSession ;;
  try_catch
    (c <- run (QHasNamespace ns) (sem_count ns) ;;
     ret (JBool (Nat.ltb 0 c)))
    (fun e => ret (JError e)).

Definition namespaceCount (ns : string) : M JsVal :=
  getSession ;;
  try_catch
    (c <- run (QNamespaceCount ns) (sem_count ns) ;;
     ret (JNum c))
    (fun e => ret (JError e)).

(** [deleteDocumentFromNamespace]: the object literal defines this key
    twice; the second definition, which refreshes the graph, is the one
    in effect. *)
Definition deleteDocumentFromNamespace (ns d : string) : M JsVal :=
  getSession ;;
  try_catch
    (deletedCount <- run (QDeleteDoc ns d) (sem_delete_doc ns d) ;;
     (if Nat.ltb 0 deletedCount then updateGraphAndRelationships getSession else ret tt) ;;
     ret (JBool (Nat.ltb 0 deletedCount)))
    (fun e => ret (JError e)).

(** ** Ingestion *)

(** [documentData] as [{pageContent, docId, ...metadata}]. *)
Record DocumentData := mkDocumentData {
  dd_pageContent : string;
  dd_docId : string;
  dd_metadata : Meta
}.

(** [false], or [{vectorized, error}]. *)
Inductive AddRet : Type :=
| AddFalse
| AddResult (vectorized : bool) (error : option string).

(** The loop over cached chunks. *)
Fixpoint write_cached (ns d : string) (chunks : list (Meta * list Q)) : M unit :=
  match chunks with
  | [] => ret tt
  | (m, values) :: cs =>
      cid <- uuidv4 ;;
      run (QCreateChunk ns d cid (meta_get "text" m) m values)
          (sem_create_chunk ns d cid (meta_get "text" m) m values) ;;
      write_cached ns d cs
  end.

(** [for (const [i, vector] of vectorValues.entries())]: chunk [i] gets
    [textChunks[i]] and [{...metadata, text: textChunks[i]}] (an
    undefined [text] is dropped by JSON.stringify). *)
Fixpoint write_chunks (ns d : string) (metadata : Meta) (textChunks : list string)
  (i : nat) (vectorValues : list (list Q)) : M unit :=
  match vectorValues with
  | [] => ret tt
  | vector :: vs =>
      cid <- uuidv4 ;;
      let tc := nth_error textChunks i in
      let chunkMetadata :=
        match tc with Some s => meta_set "text" s metadata | None => meta_remove "text" metadata end in
      run (QCreateChunk ns d cid tc chunkMetadata vector)
          (sem_create_chunk ns d cid tc chunkMetadata vector) ;;
      write_chunks ns d metadata textChunks (S i) vs
  end.

Definition addDocumentToNamespace (ns : string) (documentData : DocumentData)
  (fullFilePath : option string) (skipCache : bool) : M AddRet :=
  getSession ;;
  try_catch
    (if String.eqb (dd_pageContent documentData) "" then ret AddFalse
     else
       env <- ask ;;
       let d := dd_docId documentData in
       let metadata := dd_metadata documentData in
       match (if skipCache then cachedVectorInformation env fullFilePath else None) with
       | Some chunks =>
           write_cached ns d chunks ;;
           updateGraphAndRelationships getSession ;;
           ret (AddResult true None)
       | None =>
           let textChunks := splitText env (dd_pageContent documentData) in
           emit (EEmbedChunks textChunks) ;;
           vectorValues <- lift (embedChunks env textChunks) ;;
           match vectorValues with
           | Some ((_ :: _) as vs) =>
               write_chunks ns d metadata textChunks 0 vs ;;
               emit EStoreVectorResult ;;
               updateGraphAndRelationships getSession ;;
               ret (AddResult true None)
           | _ => throw "Could not embed document chunks!"
           end
       end)
    (fun e => ret (AddResult false (Some e))).

(** ** Similarity search *)

Record SearchArgs := mkSearchArgs {
  namespace : string;
  input : string;
  similarityThreshold : Q;
  topN : nat;
  filterFilters : list string
}.

(** [`No results found for namespace ${namespace} above similarity threshold ${t}`] *)
Inductive SearchMessage : Type :=
| NoResultsAbove (ns : string) (t : Q).

Record SearchResult := mkSearchResult {
  contextTexts : list (option string);
  sources : list Meta;
  scores : list (option Q);
  relatedContextsOut : list (list (option string));
  message : option SearchMessage
}.

(** The returned object: a search result, or [{error: message}]. *)
Inductive SearchRet : Type :=
| SResult (r : SearchResult)
| SError (msg : string).

(** [const docId = ... JSON.parse(sourceDocument).docId]
    [if (filterFilters.length === 0 || !filterFilters.includes(docId))] *)
Definition keep_record (filterFilters : list string) (row : Row) : bool :=
  match filterFilters with
  | [] => true
  | _ => negb (existsb (fun f =>
                 match meta_get "docId" (sourceDocument row) with
                 | Some d => String.eqb f d
                 | None => false
                 end) filterFilters)
  end.

(** The [forEach] over the records, the result object, and the call
    [removeMetadata(vectorSearchResults)], whose [text.replace(...)] on
    each context text throws on a [null] text. *)
Definition process_records (ns : string) (t : Q) (filterFilters : list string)
  (records : list Row) : Completion SearchResult :=
  let kept := filter (keep_record filterFilters) records in
  let r := {| contextTexts := map contextText kept;
              sources := map sourceDocument kept;
              scores := map combinedScore kept;
              relatedContextsOut := map relatedContexts kept;
              message := match kept with [] => Some (NoResultsAbove ns t) | _ => None end |} in
  if existsb (fun c => match c with None => true | Some _ => false end) (contextTexts r)
  then Throw "Cannot read properties of null (reading 'replace')"
  else Normal r.

Definition performEnhancedSimilaritySearch (a : SearchArgs) (knnDepth : nat) : M SearchRet :=
  getSession ;;
  try_catch
    (env <- ask ;;
     emit (EEmbedQuery (input a)) ;;
     queryVector <- lift (embedTextInput env (input a)) ;;
     result <- run (QSearch (namespace a) queryVector (similarityThreshold a) (topN a) knnDepth)
                   (sem_search (namespace a) queryVector (similarityThreshold a) (topN a) knnDepth) ;;
     vectorSearchResults <- lift (process_records (namespace a) (similarityThreshold a)
                                    (filterFilters a) result) ;;
     ret (SResult vectorSearchResults))
    (fun error => ret (SError error)).

(** [performSimilaritySearch] forwards its arguments; [knnDepth] takes
    its default value 2. *)
Definition performSimilaritySearch (a : SearchArgs) : M SearchRet :=
  performEnhancedSimilaritySearch a 2.

(** ** Further operations of the adapter *)

Definition sem_return_one (env : Env) (db : DB) : Completion (DB * unit) :=
  Normal (db, tt).

(** [MATCH (n) DETACH DELETE n]: every node and relationship goes; the
    in-memory projection and the index definitions are not graph data. *)
Definition sem_delete_all (env : Env) (db : DB) : Completion (DB * unit) :=
  Normal (mkDB [] [] (graphProjected db) (vectorIndex db) (next_nid db), tt).

(** [gds.knn.write] with [similarityCutoff: 0.5]: the written edges are
    those of similarity at least 1/2; the existing ones are kept. *)
Definition sem_knn_write_cutoff (env : Env) (db : DB) : Completion (DB * unit) :=
  if graphProjected db
  then Normal (set_rels db (rels db ++ filter (fun r => Qle_bool (1 # 2) (similarity r))
                                              (knn env (nodes db) 5)), tt)
  else Throw "Graph with name 'chunkGraph' does not exist".

(** [{heartbeat: true}], or [{error: message}]. *)
Inductive HeartbeatRet : Type :=
| HeartbeatTrue
| HeartbeatError (msg : string).

Definition heartbeat : M HeartbeatRet :=
  getSession ;;
  try_catch
    (run QReturnOne sem_return_one ;;
     ret HeartbeatTrue)
    (fun error => ret (HeartbeatError error)).

(** [{reset: true}], or [{error: message}]. *)
Inductive ResetRet : Type :=
| ResetTrue
| ResetError (msg : string).

Definition reset : M ResetRet :=
  getSession ;;
  try_catch
    (run QDeleteAll sem_delete_all ;;
     ret ResetTrue)
    (fun error => ret (ResetError error)).

(** [{vectorCount: count}], or [{error: message}]. *)
Inductive StatsRet : Type :=
| VectorCount (n : nat)
| StatsError (msg : string).

(** [namespaceStats(reqBody)]: [reqNamespace] is [reqBody.namespace]
    ([None]: absent or [null]); [if (!namespace) throw ...] also throws
    on the empty string.  The statement is the one of [namespaceCount]. *)
Definition namespaceStats (reqNamespace : option string) : M StatsRet :=
  match reqNamespace with
  | None => throw "namespace required"
  | Some namespace =>
      if String.eqb namespace "" then throw "namespace required"
      else
        getSession ;;
        try_catch
          (count <- run (QNamespaceCount namespace) (sem_count namespace) ;;
           ret (VectorCount count))
          (fun error => ret (StatsError error))
  end.

Definition createGraphProjection : M unit :=
  getSession ;;
  try_catch
    (graphExists <- run QGraphExists sem_graph_exists ;;
     (if graphExists then run QGraphDrop sem_graph_drop else ret tt) ;;
     projectGraph)
    (fun _ => ret tt).        (* console.error("Error in graph projection process:", error) *)

Definition updateGraphProjectionAndKNN : M unit :=
  getSession ;;
  try_catch
    (graphExists <- run QGraphExists sem_graph_exists ;;
     (if graphExists then run QGraphDrop sem_graph_drop else ret tt) ;;
     projectGraph ;;
     run QKnnWriteCutoff sem_knn_write_cutoff)
    (fun _ => ret tt).        (* console.error("Error updating graph projection and KNN:", error) *)

(** [disconnect]: [if (this.driver) { await this.driver.close(); this.driver = null; }]
    ([driver.close()] is taken to succeed). *)
Definition disconnect : M unit :=
  fun _ w =>
    if driver w then (mkWorld (db w) false (trace w) (uuid w), Normal tt)
    else (w, Normal tt).

(** [listDocumentsInNamespace] is not [async] and does not await
    [this.getSession()]: [session] is a Promise, and [session.run(...)]
    throws a TypeError synchronously.  With [this.driver] unset, the
    synchronous part of [initialize] runs first (the driver is assigned and
    [verifyConnectivity] is called); the rest of [initialize] continues
    after this call has thrown and is not part of this definition. *)
Definition listDocumentsInNamespace (namespace : string) : M unit :=
  fun env w =>
    let w1 :=
      if driver w then w
      else if negb (String.eqb (env_VECTOR_DB env) "neo4j") then w
      else mkWorld (db w) true (trace w ++ [EVerifyConnectivity]) (uuid w) in
    (w1, Throw "session.run is not a function").

(** ** Concrete configurations *)

(** The dot product; on unit-norm embeddings it is the cosine. *)
Fixpoint dot (a b : list Q) : Q :=
  match a, b with
  | x :: a', y :: b' => x * y + dot a' b'
  | _, _ => 0
  end.

Definition no_fail (r : Request) : option string := None.

Definition env0 : Env :=
  {| env_VECTOR_DB := "neo4j";
     connectivity := None;
     run_fails := no_fail;
     cosine := dot;
     knn := fun _ _ => [];
     embedTextInput := fun _ => Normal [1; 0];
     embedChunks := fun ts => Normal (Some (map (fun _ => [1; 0]) ts));
     splitText := fun s => [s];
     cachedVectorInformation := fun _ => None |}.

Definition db_empty : DB := mkDB [] [] false None 0.

Definition world_of (d : DB) : World := mkWorld d true [] 0.

Definition chunk (i : nat) (ns d : string) (pc : string) (e : list Q) : Node :=
  mkNode i ["Chunk"; ns] d i (Some pc) [("docId", d); ("text", pc)] (Some e).

Definition args (ns : string) (t : Q) (n : nat) (ff : list string) : SearchArgs :=
  mkSearchArgs ns "query" t n ff.

(** ** Inputs used by the proofs below *)

Definition env_embed_fails : Env :=
  {| env_VECTOR_DB := "neo4j"; connectivity := None; run_fails := no_fail;
     cosine := dot; knn := fun _ _ => [];
     embedTextInput := fun _ => Throw "embedding service unavailable";
     embedChunks := embedChunks env0; splitText := splitText env0;
     cachedVectorInformation := cachedVectorInformation env0 |}.

Definition env_count_fails : Env :=
  {| env_VECTOR_DB := "neo4j"; connectivity := None;
     run_fails := fun r => match r with
                           | QHasNamespace _ | QNamespaceCount _ => Some "ServiceUnavailable"
                           | _ => None end;
     cosine := dot; knn := fun _ _ => [];
     embedTextInput := embedTextInput env0; embedChunks := embedChunks env0;
     splitText := splitText env0; cachedVectorInformation := cachedVectorInformation env0 |}.

(** A namespace with one chunk and no SIMILAR_TO relationship. *)
Definition db_lonely : DB := mkDB [chunk 1 "acme" "d1" "a" [1; 0]] [] false None 2.

(** Chunk 1 matches the query at 3/5; chunks 2 and 3 do not match it and
    are reached through relationships of weight 3/5. *)
Definition db_decay : DB :=
  mkDB [chunk 1 "acme" "d1" "a" [3#5; 4#5]; chunk 2 "acme" "d1" "b" [0; 1];
        chunk 3 "acme" "d1" "c" [0; 1]]
       [mkRel 10 1 2 (3#5); mkRel 11 2 3 (3#5)] false None 4.

(** The numbers among Cypher values ([null]s left out). *)
Fixpoint somes (l : list (option Q)) : list Q :=
  match l with
  | [] => []
  | Some x :: l' => x :: somes l'
  | None :: l' => somes l'
  end.

(** Chunk 1 (document d1) matches the query best; chunk 2 (document d2)
    also passes the threshold. *)
Definition db_two_docs : DB :=
  mkDB [chunk 1 "acme" "d1" "a" [1; 0]; chunk 2 "acme" "d2" "b" [3#5; 4#5]] [] false None 3.

(** The number of results a call returns; an [{error: message}] object
    returns none. *)
Definition result_count (c : Completion SearchRet) : nat :=
  match c with
  | Normal (SResult r) => List.length (contextTexts r)
  | _ => O
  end.

Definition with_threshold (a : SearchArgs) (t : Q) : SearchArgs :=
  mkSearchArgs (namespace a) (input a) t (topN a) (filterFilters a).

(** A namespace where chunk 1 has no [pageContent] and matches the query
    at 3/5, and chunk 2 matches it at 1. *)
Definition db_untexted : DB :=
  mkDB [mkNode 1 ["Chunk"; "acme"] "d1" 1 None [("docId", "d1")] (Some [3#5; 4#5]);
        chunk 2 "acme" "d2" "b" [1; 0]] [] false None 3.

(** [m], run on an initialized adapter, keeps it initialized and only
    appends events satisfying [P] to the trace. *)
Definition appends_only (P : Event -> Prop) {A} (m : M A) : Prop :=
  forall env w, driver w = true ->
    driver (fst (m env w)) = true /\
    exists nw, trace (fst (m env w)) = trace w ++ nw /\ Forall P nw.

(** Statements of the maintenance pass. *)
Definition graph_request (e : Event) : Prop :=
  e = ERun QGraphExists \/ e = ERun QGraphDrop \/ e = ERun QGraphProject \/
  e = ERun QDeleteSimilar \/ e = ERun (QKnnWrite 5).

Definition maintenance_request (e : Event) : Prop :=
  graph_request e \/ e = ERun QEmbeddingDim \/ exists d, e = ERun (QCreateVectorIndex d).

(** The body run after [emit EPipeline] and [getSession]. *)
Definition update_body : M unit :=
  try_catch
    (createOrUpdateVectorIndex getSession ;;
     graphExists <- run QGraphExists sem_graph_exists ;;
     (if graphExists then run QGraphDrop sem_graph_drop else ret tt) ;;
     projectGraph ;;
     createKNNRelationships getSession 5)
    (fun _ => ret tt).

(** No [Chunk] node carries an embedding. *)
Definition no_embeddings (d : DB) : Prop :=
  forall n, In n (nodes d) -> has_label "Chunk" n = true -> embedding n = None.

Definition db_unembedded : DB :=
  mkDB [mkNode 1 ["Chunk"; "acme"] "d1" 1 (Some "a") [("docId", "d1")] None]
       [mkRel 1 1 1 (1#2)] true None 2.

Definition db_projected_empty : DB := mkDB [] [] true None 0.

Definition is_pipeline (e : Event) : bool :=
  match e with EPipeline => true | _ => false end.

Definition dd_hello : DocumentData := mkDocumentData "hello" "d1" [].

(** A fresh adapter: [this.driver] not yet set. *)
Definition world_uninit (d : DB) : World := mkWorld d false [] 0.

(** A batch embedder returning [undefined]. *)
Definition env_embed_none : Env :=
  {| env_VECTOR_DB := "neo4j";
     connectivity := None;
     run_fails := no_fail;
     cosine := dot;
     knn := fun _ _ => [];
     embedTextInput := fun _ => Normal [1; 0];
     embedChunks := fun _ => Normal None;
     splitText := fun s => [s];
     cachedVectorInformation := fun _ => None |}.

(** Every run of [m] relates the graph before to the graph after by [R]. *)
Definition stable (R : DB -> DB -> Prop) {A} (m : M A) : Prop :=
  forall env w, R (db w) (db (fst (m env w))).

(** A statement whose successful runs relate the graphs by [R]. *)
Definition sem_respects (R : DB -> DB -> Prop) {A} (sem : Env -> DB -> Completion (DB * A)) : Prop :=
  forall env d d' a, sem env d = Normal (d', a) -> R d d'.

(** Relations between the graph before and after a run: the same chunk
    nodes; an existing vector index kept; chunk nodes only appended. *)
Definition same_nodes (d d' : DB) : Prop := nodes d' = nodes d.
Definition keeps_index (d d' : DB) : Prop :=
  forall k, vectorIndex d = Some k -> vectorIndex d' = Some k.
Definition nodes_extended (d d' : DB) : Prop := exists l, nodes d' = nodes d ++ l.

(** The second chunk write fails ([uuidv4] numbers the chunks from 0);
    the text splitter cuts a text into two chunks. *)
Definition env_second_write_fails : Env :=
  {| env_VECTOR_DB := "neo4j"; connectivity := None;
     run_fails := fun r => match r with
                           | QCreateChunk _ _ 1 _ _ _ => Some "TransientError"
                           | _ => None end;
     cosine := dot; knn := fun _ _ => [];
     embedTextInput := embedTextInput env0; embedChunks := embedChunks env0;
     splitText := fun s => [s; s]; cachedVectorInformation := fun _ => None |}.

(** Events that are not a call of the embedder on document chunks. *)
Definition not_embed_chunks (e : Event) : Prop := forall ts, e <> EEmbedChunks ts.

(** No node of the graph carries a [docId] key in its metadata. *)
Definition no_docid_meta (d : DB) : Prop :=
  forall n, In n (nodes d) -> meta_get "docId" (metadata n) = None.

(** A run keeps [no_docid_meta]. *)
Definition keeps_no_docid (d d' : DB) : Prop := no_docid_meta d -> no_docid_meta d'.

(** * Proofs *)

(** ** General facts about the model *)

Lemma getSession_inited (env : Env) (w : World) :
  driver w = true -> getSession env w = (w, Normal tt).
Proof. intros H. unfold getSession, getSession_fuel. now rewrite H. Qed.

Lemma flat_map_guard_nil {A B} (p : A -> bool) (f : A -> list B) (l : list A) :
  filter p l = [] -> flat_map (fun x => if p x then f x else []) l = [].
Proof.
  induction l as [|x l IH]; simpl; [reflexivity|].
  destruct (p x); [discriminate|]. exact IH.
Qed.

Lemma search_query_no_chunks (env : Env) (d : DB) (ns : string) (qv : list Q)
  (t : Q) (n k : nat) :
  count_ns d ns = 0%nat -> search_query env d ns qv t n k = [].
Proof.
  unfold count_ns, search_query, stage1, direct_matches. intros H.
  apply length_zero_iff_nil in H.
  rewrite (flat_map_guard_nil (in_ns ns)) by exact H.
  simpl. now destruct n.
Qed.

(** Unfold one adapter entry point on an initialized driver. *)
Ltac step_entry Hdrv :=
  cbv beta iota delta [performSimilaritySearch performEnhancedSimilaritySearch
    hasNamespace namespaceCount bind try_catch getSession getSession_fuel
    ask emit lift run ret sem_search sem_count];
  rewrite Hdrv; cbv beta iota.

(** ** C1: search on an empty namespace *)

(** C1 (counterexample): on a namespace with no chunk, performSimilaritySearch
    still calls the embedder and issues the similarity query. *)
Lemma C1_embedder_called_on_empty_namespace :
  count_ns db_empty "acme" = 0%nat /\
  trace (fst (performSimilaritySearch (args "acme" (1#4) 4 []) env0 (world_of db_empty)))
  = [EEmbedQuery "query"; ERun (QSearch "acme" [1; 0] (1#4) 4 2)].
Proof. split; vm_compute; reflexivity. Qed.

(** C1 (amended): with the adapter initialized, on a namespace whose chunk
    count is 0, performSimilaritySearch returns empty contextTexts, sources
    and scores and a non-null message when the embedding and the query
    succeed; the query is embedded and the similarity query is issued. *)
Theorem C1_empty_namespace_search (env : Env) (w : World) (a : SearchArgs) (qv : list Q)
  (Hdrv : driver w = true)
  (Hcount : count_ns (db w) (namespace a) = 0%nat)
  (Hemb : embedTextInput env (input a) = Normal qv)
  (Hrun : run_fails env (QSearch (namespace a) qv (similarityThreshold a) (topN a) 2) = None) :
  snd (performSimilaritySearch a env w)
  = Normal (SResult (mkSearchResult [] [] [] []
                       (Some (NoResultsAbove (namespace a) (similarityThreshold a)))))
  /\ trace (fst (performSimilaritySearch a env w))
     = trace w ++ [EEmbedQuery (input a);
                   ERun (QSearch (namespace a) qv (similarityThreshold a) (topN a) 2)].
Proof.
  step_entry Hdrv. rewrite Hemb. cbv beta iota. rewrite Hrun.
  cbn -[search_query]. rewrite (search_query_no_chunks env (db w) (namespace a) qv _ _ _ Hcount).
  simpl. rewrite <- app_assoc. split; reflexivity.
Qed.

Lemma C1_empty_namespace_search_witness :
  driver (world_of db_empty) = true /\
  count_ns (db (world_of db_empty)) "acme" = 0%nat /\
  embedTextInput env0 "query" = Normal [1; 0] /\
  run_fails env0 (QSearch "acme" [1; 0] (1#4) 4 2) = None /\
  snd (performSimilaritySearch (args "acme" (1#4) 4 []) env0 (world_of db_empty))
  = Normal (SResult (mkSearchResult [] [] [] [] (Some (NoResultsAbove "acme" (1#4))))).
Proof.
  refine (conj eq_refl (conj eq_refl (conj eq_refl (conj eq_refl _)))).
  exact (proj1 (C1_empty_namespace_search env0 (world_of db_empty) (args "acme" (1#4) 4 [])
                  [1; 0] eq_refl eq_refl eq_refl eq_refl)).
Defined.

(** ** C6: failures inside search *)

(** C6 (counterexample): when the embedder fails, performSimilaritySearch
    returns only [{error: message}], with no contextTexts, sources or scores. *)
Lemma C6_error_object_only :
  snd (performSimilaritySearch (args "acme" (1#4) 4 []) env_embed_fails (world_of db_empty))
  = Normal (SError "embedding service unavailable").
Proof. vm_compute. reflexivity. Qed.

(** C6 (amended): with the adapter initialized, a failure of the embedding
    call or of the similarity query is caught: performSimilaritySearch
    returns normally the object [{error: message}] of that failure. *)
Theorem C6_search_failure_is_error_object (env : Env) (w : World) (a : SearchArgs) :
  driver w = true ->
  (forall e, embedTextInput env (input a) = Throw e ->
     snd (performSimilaritySearch a env w) = Normal (SError e)) /\
  (forall qv e, embedTextInput env (input a) = Normal qv ->
     run_fails env (QSearch (namespace a) qv (similarityThreshold a) (topN a) 2) = Some e ->
     snd (performSimilaritySearch a env w) = Normal (SError e)).
Proof.
  intros Hdrv. split.
  - intros e He. step_entry Hdrv. rewrite He. reflexivity.
  - intros qv e He Hr. step_entry Hdrv. rewrite He. cbv beta iota. rewrite Hr. reflexivity.
Qed.

Lemma C6_search_failure_is_error_object_witness :
  driver (world_of db_empty) = true /\
  snd (performSimilaritySearch (args "acme" (1#4) 4 []) env_embed_fails (world_of db_empty))
  = Normal (SError "embedding service unavailable").
Proof.
  split; [reflexivity|].
  apply (proj1 (C6_search_failure_is_error_object env_embed_fails (world_of db_empty)
                  (args "acme" (1#4) 4 []) eq_refl)).
  reflexivity.
Defined.

(** ** C10: failing count queries *)

(** C10: with the adapter initialized, when the count query fails,
    hasNamespace and namespaceCount return normally [{error: message}]
    (neither a boolean nor a number), and [namespaceCount(ns) === 0] is
    then false. *)
Theorem C10_count_failure_is_error_object (env : Env) (w : World) (ns e e' : string) :
  driver w = true ->
  run_fails env (QHasNamespace ns) = Some e ->
  run_fails env (QNamespaceCount ns) = Some e' ->
  snd (hasNamespace ns env w) = Normal (JError e) /\
  snd (namespaceCount ns env w) = Normal (JError e') /\
  js_strict_eq_zero (JError e') = false.
Proof.
  intros Hdrv H1 H2. split; [|split].
  - step_entry Hdrv. rewrite H1. reflexivity.
  - step_entry Hdrv. rewrite H2. reflexivity.
  - reflexivity.
Qed.

Lemma C10_count_failure_is_error_object_witness :
  snd (namespaceCount "acme" env_count_fails (world_of db_empty))
  = Normal (JError "ServiceUnavailable") /\
  js_strict_eq_zero (JError "ServiceUnavailable") = false.
Proof.
  destruct (C10_count_failure_is_error_object env_count_fails (world_of db_empty)
              "acme" "ServiceUnavailable" "ServiceUnavailable" eq_refl eq_refl eq_refl)
    as [_ [H1 H2]].
  exact (conj H1 H2).
Defined.

(** ** C3: the combined score *)

(** C3 (code_bug): for a chunk with no neighbour, the OPTIONAL MATCH row
    [{node: null, pathSimilarity: null}] is collected, so
    [size(relatedNodes) = 1], the average is [null] rather than 0, and the
    returned score is [null] instead of [0.7 * directSimilarity]. *)
Lemma C3_no_neighbour_score_is_null :
  dot [1; 0] [1; 0] == 1 /\
  relatedNodes db_lonely (1#4) 2 (chunk 1 "acme" "d1" "a" [1; 0]) = [(None, None)] /\
  snd (performSimilaritySearch (args "acme" (1#4) 4 []) env0 (world_of db_lonely))
  = Normal (SResult (mkSearchResult [Some "a"] [[("docId", "d1"); ("text", "a")]]
                       [None] [[None]] None)).
Proof. split; [|split]; vm_compute; reflexivity. Qed.

(** ** C2: bound, threshold and order of the returned scores *)

(** C2 (counterexample): with threshold 3/5 the only result scores
    0.7 * 3/5 + 0.3 * (3/5 + 9/25) / 2 = 0.564, below the threshold. *)
Lemma C2_score_below_threshold :
  forallb (fun e => Qeq_bool (dot e e) 1) [[1; 0]; [3#5; 4#5]; [0; 1]] = true /\
  snd (performSimilaritySearch (args "acme" (3#5) 4 []) env0 (world_of db_decay))
  = Normal (SResult (mkSearchResult [Some "a"] [[("docId", "d1"); ("text", "a")]]
                       [Some (352500 # 625000)] [[Some "b"; Some "c"]] None)) /\
  352500 # 625000 < 3#5.
Proof. split; [|split]; vm_compute; reflexivity. Qed.

(** ** The ORDER BY sort *)

Section SortFacts.
Context {A : Type} (before : A -> A -> bool).
Let R := fun a b => before a b = true.
Hypothesis before_total : forall a b, before a b = false -> before b a = true.
Hypothesis before_trans : forall a b c, before a b = true -> before b c = true -> before a c = true.

Lemma insert_by_Forall (P : A -> Prop) (x : A) (l : list A) :
  Forall P l -> P x -> Forall P (insert_by before x l).
Proof.
  induction l as [|y l IH]; simpl; intros Hl Hx; [constructor; auto|].
  inversion Hl; subst. destruct (before x y); constructor; auto.
Qed.

Lemma insert_by_sorted (x : A) (l : list A) :
  StronglySorted R l -> StronglySorted R (insert_by before x l).
Proof.
  induction l as [|y l IH]; simpl; intros Hs.
  - constructor; constructor.
  - apply StronglySorted_inv in Hs as [Hl Hy].
    destruct (before x y) eqn:Exy.
    + constructor; [constructor; assumption|].
      constructor; [exact Exy|].
      eapply Forall_impl; [|exact Hy]. intros z Hz. exact (before_trans _ _ _ Exy Hz).
    + constructor; [apply IH; exact Hl|].
      apply insert_by_Forall; [exact Hy|]. apply before_total; exact Exy.
Qed.

Lemma sort_by_sorted (l : list A) : StronglySorted R (sort_by before l).
Proof.
  induction l as [|x l IH]; simpl; [constructor|]. now apply insert_by_sorted.
Qed.
End SortFacts.

Lemma insert_by_count {A} (before : A -> A -> bool) (p : A -> bool) (x : A) (l : list A) :
  List.length (filter p (insert_by before x l)) = List.length (filter p (x :: l)).
Proof.
  induction l as [|y l IH]; simpl; [reflexivity|].
  destruct (before x y); [reflexivity|]. simpl in *.
  destruct (p x), (p y); simpl in *; rewrite ?IH; reflexivity.
Qed.

Lemma sort_by_count {A} (before : A -> A -> bool) (p : A -> bool) (l : list A) :
  List.length (filter p (sort_by before l)) = List.length (filter p l).
Proof.
  induction l as [|x l IH]; simpl; [reflexivity|].
  rewrite insert_by_count. simpl. destruct (p x); simpl; rewrite IH; reflexivity.
Qed.

Lemma sort_by_length {A} (before : A -> A -> bool) (l : list A) :
  List.length (sort_by before l) = List.length l.
Proof.
  rewrite <- (filter_true l) at 2. rewrite <- (sort_by_count before (fun _ => true)).
  now rewrite filter_true.
Qed.

Lemma StronglySorted_filter {A} (R : A -> A -> Prop) (p : A -> bool) (l : list A) :
  StronglySorted R l -> StronglySorted R (filter p l).
Proof.
  induction l as [|x l IH]; simpl; intros Hs; [constructor|].
  apply StronglySorted_inv in Hs as [Hl Hx].
  destruct (p x); [|auto]. constructor; [auto|].
  apply Forall_forall. intros y Hy. apply filter_In in Hy as [Hy _].
  exact (proj1 (Forall_forall _ _) Hx y Hy).
Qed.

Lemma StronglySorted_firstn {A} (R : A -> A -> Prop) (n : nat) (l : list A) :
  StronglySorted R l -> StronglySorted R (firstn n l).
Proof.
  revert n. induction l as [|x l IH]; intros [|n] Hs; simpl; try constructor.
  - apply StronglySorted_inv in Hs as [Hl Hx]. auto.
  - apply StronglySorted_inv in Hs as [Hl Hx].
    apply Forall_forall. intros y Hy. apply (proj1 (Forall_forall _ _) Hx).
    rewrite <- (firstn_skipn n l). apply in_or_app. left. exact Hy.
Qed.

Lemma StronglySorted_map {A B} (R : B -> B -> Prop) (f : A -> B) (l : list A) :
  StronglySorted (fun a b => R (f a) (f b)) l -> StronglySorted R (map f l).
Proof.
  induction l as [|x l IH]; simpl; intros Hs; [constructor|].
  apply StronglySorted_inv in Hs as [Hl Hx]. constructor; [auto|].
  apply Forall_map. exact Hx.
Qed.

Lemma Qle_bool_total (x y : Q) : Qle_bool x y = false -> Qle_bool y x = true.
Proof.
  intros H. apply Qle_bool_iff. destruct (Qlt_le_dec y x) as [Hl|Hl].
  - now apply Qlt_le_weak.
  - apply Qle_bool_iff in Hl. congruence.
Qed.

Lemma Qle_bool_trans (x y z : Q) :
  Qle_bool x y = true -> Qle_bool y z = true -> Qle_bool x z = true.
Proof. rewrite !Qle_bool_iff. apply Qle_trans. Qed.

Lemma cypher_desc_total (a b : option Q) :
  cypher_desc a b = false -> cypher_desc b a = true.
Proof.
  destruct a as [x|], b as [y|]; simpl; try discriminate; try reflexivity.
  apply Qle_bool_total.
Qed.

Lemma cypher_desc_trans (a b c : option Q) :
  cypher_desc a b = true -> cypher_desc b c = true -> cypher_desc a c = true.
Proof.
  destruct a as [x|], b as [y|], c as [z|]; simpl; try discriminate; try reflexivity.
  intros H1 H2. exact (Qle_bool_trans _ _ _ H2 H1).
Qed.

Lemma somes_In (x : Q) (l : list (option Q)) : In x (somes l) -> In (Some x) l.
Proof.
  induction l as [|[y|] l IH]; simpl; [tauto| |auto].
  intros [H|H]; [left; now subst|right; auto].
Qed.

Lemma somes_sorted (l : list (option Q)) :
  StronglySorted (fun a b => cypher_desc a b = true) l ->
  StronglySorted (fun x y => y <= x) (somes l).
Proof.
  induction l as [|[x|] l IH]; simpl; intros Hs; [constructor| |].
  - apply StronglySorted_inv in Hs as [Hl Hx]. constructor; [auto|].
    apply Forall_forall. intros y Hy. apply somes_In in Hy.
    apply (proj1 (Forall_forall _ _) Hx) in Hy. simpl in Hy. now apply Qle_bool_iff.
  - apply StronglySorted_inv in Hs as [Hl _]. auto.
Qed.

(** The rows of the query come out ordered by [combinedScore DESC]. *)
Lemma search_query_sorted (env : Env) (d : DB) (ns : string) (qv : list Q) (t : Q)
  (n k : nat) :
  StronglySorted (fun a b => cypher_desc (combinedScore a) (combinedScore b) = true)
                 (search_query env d ns qv t n k).
Proof.
  unfold search_query. apply StronglySorted_firstn.
  apply (sort_by_sorted (fun a b => cypher_desc (combinedScore a) (combinedScore b))).
  - intros x y. apply cypher_desc_total.
  - intros x y z. apply cypher_desc_trans.
Qed.

Lemma search_query_length (env : Env) (d : DB) (ns : string) (qv : list Q) (t : Q)
  (n k : nat) :
  (List.length (search_query env d ns qv t n k) <= n)%nat.
Proof. unfold search_query. apply firstn_le_length. Qed.

Lemma process_records_inv (ns : string) (t : Q) (ff : list string) (rows : list Row)
  (r : SearchResult) :
  process_records ns t ff rows = Normal r ->
  contextTexts r = map contextText (filter (keep_record ff) rows) /\
  sources r = map sourceDocument (filter (keep_record ff) rows) /\
  scores r = map combinedScore (filter (keep_record ff) rows).
Proof.
  unfold process_records. destruct existsb; intros H; inversion H; subst; simpl; auto.
Qed.

(** A search that returns a result object got it from the embedded query
    and the rows of the similarity query on the engine's graph. *)
Lemma performEnhancedSimilaritySearch_result (a : SearchArgs) (k : nat) (env : Env)
  (w : World) (r : SearchResult) :
  snd (performEnhancedSimilaritySearch a k env w) = Normal (SResult r) ->
  exists w1 qv, getSession env w = (w1, Normal tt) /\
    embedTextInput env (input a) = Normal qv /\
    process_records (namespace a) (similarityThreshold a) (filterFilters a)
      (search_query env (db w1) (namespace a) qv (similarityThreshold a) (topN a) k)
    = Normal r.
Proof.
  cbv beta iota delta [performEnhancedSimilaritySearch bind try_catch ask emit lift run
    ret sem_search].
  destruct (getSession env w) as [w1 [[]|e]] eqn:G; [|discriminate].
  destruct (embedTextInput env (input a)) as [qv|e]; [|discriminate].
  destruct (run_fails env (QSearch (namespace a) qv (similarityThreshold a) (topN a) k));
    [discriminate|].
  simpl. destruct (process_records _ _ _ _) eqn:P; [|discriminate].
  simpl. intros H. inversion H; subst. exists w1, qv. simpl in P. auto.
Qed.

(** C2 (amended): a search that returns a result object returns at most
    topN results, and its numeric scores are in non-increasing order. *)
Theorem C2_bound_and_order (env : Env) (w : World) (a : SearchArgs) (r : SearchResult) :
  snd (performSimilaritySearch a env w) = Normal (SResult r) ->
  (List.length (contextTexts r) <= topN a)%nat /\
  StronglySorted (fun x y => y <= x) (somes (scores r)).
Proof.
  intros H. apply performEnhancedSimilaritySearch_result in H as (w1 & qv & _ & _ & P).
  apply process_records_inv in P as (Hc & _ & Hs). rewrite Hc, Hs. split.
  - rewrite length_map. eapply Nat.le_trans; [apply filter_length_le|].
    apply search_query_length.
  - apply somes_sorted. apply StronglySorted_map.
    apply StronglySorted_filter. apply search_query_sorted.
Qed.

Lemma C2_bound_and_order_witness :
  (List.length [Some "a"] <= 4)%nat /\
  StronglySorted (fun x y => y <= x) (somes [Some (352500 # 625000)]).
Proof.
  apply (C2_bound_and_order env0 (world_of db_decay) (args "acme" (3#5) 4 [])
           (mkSearchResult [Some "a"] [[("docId", "d1"); ("text", "a")]]
              [Some (352500 # 625000)] [[Some "b"; Some "c"]] None)).
  vm_compute. reflexivity.
Defined.

(** ** C5: threshold monotonicity *)

Section FilterSort.
Context {A : Type} (before : A -> A -> bool) (p : A -> bool).
Hypothesis before_total : forall a b, before a b = false -> before b a = true.
Hypothesis before_trans : forall a b c, before a b = true -> before b c = true -> before a c = true.
(** [p] holds upward: what comes first in the order passes it too. *)
Hypothesis p_up : forall a b, before a b = true -> p b = true -> p a = true.

Lemma filter_none_below (y : A) (l : list A) :
  Forall (fun z => before y z = true) l -> p y = false -> filter p l = [].
Proof.
  induction l as [|z l IH]; simpl; intros Hf Hy; [reflexivity|].
  inversion Hf; subst. destruct (p z) eqn:Ez.
  - rewrite (p_up y z) in Hy by assumption. discriminate.
  - auto.
Qed.

Lemma filter_insert_by (x : A) (l : list A) :
  StronglySorted (fun a b => before a b = true) l ->
  filter p (insert_by before x l) = if p x then insert_by before x (filter p l) else filter p l.
Proof.
  induction l as [|y l IH]; simpl; intros Hs; [now destruct (p x)|].
  apply StronglySorted_inv in Hs as [Hl Hy].
  destruct (before x y) eqn:Exy; simpl.
  - destruct (p x) eqn:Ex, (p y) eqn:Ey; simpl; rewrite ?Exy; try reflexivity.
    rewrite (filter_none_below y l Hy Ey). reflexivity.
  - destruct (p x) eqn:Ex.
    + assert (Ey : p y = true) by (apply (p_up y x); auto).
      rewrite Ey, IH by exact Hl. simpl. rewrite ?Ex, ?Exy. reflexivity.
    + rewrite IH by exact Hl. rewrite ?Ex. reflexivity.
Qed.

Lemma sort_by_filter (l : list A) :
  sort_by before (filter p l) = filter p (sort_by before l).
Proof.
  induction l as [|x l IH]; simpl; [reflexivity|].
  rewrite filter_insert_by by (apply sort_by_sorted; assumption).
  destruct (p x); simpl; rewrite IH; reflexivity.
Qed.

Lemma firstn_filter_sorted (n : nat) (l : list A) :
  StronglySorted (fun a b => before a b = true) l ->
  firstn n (filter p l) = filter p (firstn n l).
Proof.
  revert n. induction l as [|x l IH]; intros n Hs; [now destruct n|].
  apply StronglySorted_inv in Hs as [Hl Hx].
  destruct n as [|n]; simpl; [now destruct (p x)|].
  destruct (p x) eqn:Ex; simpl.
  - rewrite IH by exact Hl. reflexivity.
  - rewrite (filter_none_below x l Hx Ex).
    assert (Hx' : Forall (fun z => before x z = true) (firstn n l)).
    { apply Forall_forall. intros z Hz. apply (proj1 (Forall_forall _ _) Hx).
      rewrite <- (firstn_skipn n l). apply in_or_app. left. exact Hz. }
    rewrite (filter_none_below x _ Hx' Ex). now destruct n.
Qed.
End FilterSort.

Lemma filter_filter_impl {A} (p q : A -> bool) (l : list A) :
  (forall x, p x = true -> q x = true) -> filter p (filter q l) = filter p l.
Proof.
  intros H. induction l as [|x l IH]; simpl; [reflexivity|].
  destruct (q x) eqn:Eq; simpl; rewrite ?IH.
  - reflexivity.
  - destruct (p x) eqn:Ep; [rewrite (H x Ep) in Eq; discriminate|reflexivity].
Qed.

Lemma length_filter_filter {A} (p q : A -> bool) (l : list A) :
  (List.length (filter p (filter q l)) <= List.length (filter p l))%nat.
Proof.
  induction l as [|x l IH]; simpl; [lia|].
  destruct (q x); simpl; destruct (p x); simpl; lia.
Qed.

Lemma length_filter_map {A B} (f : B -> bool) (g : A -> B) (h : A -> bool) (l : list A) :
  (forall x, f (g x) = h x) ->
  List.length (filter f (map g l)) = List.length (filter h l).
Proof.
  intros H. induction l as [|x l IH]; simpl; [reflexivity|].
  rewrite H. destruct (h x); simpl; rewrite IH; reflexivity.
Qed.

(** Raising the threshold keeps the first-stage rows that pass the new one. *)
Lemma stage1_raise (env : Env) (d : DB) (ns : string) (qv : list Q) (t1 t2 : Q) (n : nat) :
  t1 <= t2 ->
  stage1 env d ns qv t2 n = filter (fun p => Qle_bool t2 (snd p)) (stage1 env d ns qv t1 n).
Proof.
  intros Ht. unfold stage1, direct_matches.
  set (base := flat_map _ (nodes d)).
  set (B1 := fun a b : Node * Q => Qle_bool (snd b) (snd a)).
  assert (Htot : forall a b, B1 a b = false -> B1 b a = true)
    by (intros a b; apply Qle_bool_total).
  assert (Htr : forall a b c, B1 a b = true -> B1 b c = true -> B1 a c = true)
    by (intros a b c H1 H2; exact (Qle_bool_trans _ _ _ H2 H1)).
  assert (Hup : forall a b, B1 a b = true -> Qle_bool t2 (snd b) = true ->
                            Qle_bool t2 (snd a) = true)
    by (intros a b H1 H2; exact (Qle_bool_trans _ _ _ H2 H1)).
  rewrite <- (filter_filter_impl (fun p => Qle_bool t2 (snd p)) (fun p => Qle_bool t1 (snd p)))
    by (intros x Hx; apply Qle_bool_iff; apply Qle_bool_iff in Hx; exact (Qle_trans _ _ _ Ht Hx)).
  rewrite (sort_by_filter B1 _ Htot Htr Hup).
  apply (firstn_filter_sorted B1); [exact Hup|]. apply sort_by_sorted; assumption.
Qed.

Lemma search_query_count (env : Env) (d : DB) (ns : string) (qv : list Q) (t : Q)
  (n k : nat) (ff : list string) :
  List.length (filter (keep_record ff) (search_query env d ns qv t n k))
  = List.length (filter (fun p => keep_record ff (mk_row d t k p)) (stage1 env d ns qv t n)).
Proof.
  unfold search_query. rewrite firstn_all2.
  - rewrite sort_by_count. apply length_filter_map. reflexivity.
  - rewrite sort_by_length, length_map. apply firstn_le_length.
Qed.

(** For a fixed query and graph, the number of rows kept by the exclusion
    filter never grows when the threshold is raised. *)
Lemma search_query_count_antitone (env : Env) (d : DB) (ns : string) (qv : list Q)
  (t1 t2 : Q) (n k : nat) (ff : list string) :
  t1 <= t2 ->
  (List.length (filter (keep_record ff) (search_query env d ns qv t2 n k))
   <= List.length (filter (keep_record ff) (search_query env d ns qv t1 n k)))%nat.
Proof.
  intros Ht. rewrite !search_query_count, (stage1_raise env d ns qv t1 t2 n Ht).
  rewrite (filter_ext (fun p => keep_record ff (mk_row d t2 k p))
                      (fun p => keep_record ff (mk_row d t1 k p))) by reflexivity.
  apply length_filter_filter.
Qed.

(** Among calls that return a result object, raising the threshold never
    increases the number of results. *)
Lemma search_results_antitone (env : Env) (w : World) (a : SearchArgs) (t1 t2 : Q)
  (r1 r2 : SearchResult) :
  t1 <= t2 ->
  snd (performSimilaritySearch (with_threshold a t1) env w) = Normal (SResult r1) ->
  snd (performSimilaritySearch (with_threshold a t2) env w) = Normal (SResult r2) ->
  (List.length (contextTexts r2) <= List.length (contextTexts r1))%nat.
Proof.
  intros Ht H1 H2.
  apply performEnhancedSimilaritySearch_result in H1 as (w1 & qv1 & G1 & E1 & P1).
  apply performEnhancedSimilaritySearch_result in H2 as (w2 & qv2 & G2 & E2 & P2).
  simpl in *. rewrite G1 in G2. inversion G2; subst w2.
  rewrite E1 in E2. inversion E2; subst qv2.
  apply process_records_inv in P1 as (C1 & _). apply process_records_inv in P2 as (C2 & _).
  rewrite C1, C2, !length_map. apply search_query_count_antitone. exact Ht.
Qed.

(** C5 (code_bug): at threshold 1/2 both chunks are returned by the query
    and [removeMetadata] throws on the null context text of chunk 1, so the
    call returns [{error}] and no result; at threshold 4/5 only chunk 2 is
    returned and the call returns one result. *)
Lemma C5_count_grows_with_threshold :
  (1#2) <= (4#5) /\
  snd (performSimilaritySearch (args "acme" (1#2) 4 []) env0 (world_of db_untexted))
  = Normal (SError "Cannot read properties of null (reading 'replace')") /\
  result_count (snd (performSimilaritySearch (args "acme" (1#2) 4 []) env0
                       (world_of db_untexted))) = O /\
  result_count (snd (performSimilaritySearch (args "acme" (4#5) 4 []) env0
                       (world_of db_untexted))) = 1%nat.
Proof. vm_compute. repeat split; discriminate. Qed.

(** ** Traces of the adapter's computations *)

Section Appends.
Variable P : Event -> Prop.

Lemma appends_ret {A} (a : A) : appends_only P (ret a).
Proof. intros env w H. split; [exact H|]. exists []. rewrite app_nil_r. auto. Qed.

Lemma appends_throw {A} (e : string) : appends_only P (@throw A e).
Proof. intros env w H. split; [exact H|]. exists []. rewrite app_nil_r. auto. Qed.

Lemma appends_ask : appends_only P ask.
Proof. intros env w H. split; [exact H|]. exists []. rewrite app_nil_r. auto. Qed.

Lemma appends_lift {A} (c : Completion A) : appends_only P (lift c).
Proof. intros env w H. split; [exact H|]. exists []. rewrite app_nil_r. auto. Qed.

Lemma appends_uuidv4 : appends_only P uuidv4.
Proof. intros env w H. split; [exact H|]. exists []. rewrite app_nil_r. auto. Qed.

Lemma appends_emit (e : Event) : P e -> appends_only P (emit e).
Proof. intros He env w H. split; [exact H|]. exists [e]. auto. Qed.

Lemma appends_run {A} (r : Request) (sem : Env -> DB -> Completion (DB * A)) :
  P (ERun r) -> appends_only P (run r sem).
Proof.
  intros Hr env w H. unfold run.
  destruct (run_fails env r); [|destruct (sem env _) as [[d' a]|e]];
    (split; [exact H|exists [ERun r]; auto]).
Qed.

Lemma appends_getSession : appends_only P getSession.
Proof.
  intros env w H. rewrite getSession_inited by exact H. split; [exact H|].
  exists []. rewrite app_nil_r. auto.
Qed.

Lemma appends_bind {A B} (m : M A) (k : A -> M B) :
  appends_only P m -> (forall a, appends_only P (k a)) -> appends_only P (bind m k).
Proof.
  intros Hm Hk env w H. unfold bind.
  destruct (Hm env w H) as [D1 [n1 [T1 F1]]].
  destruct (m env w) as [w1 [a|e]]; simpl in *.
  - destruct (Hk a env w1 D1) as [D2 [n2 [T2 F2]]]. split; [exact D2|].
    exists (n1 ++ n2). rewrite T2, T1, app_assoc. split; [reflexivity|].
    apply Forall_app; auto.
  - split; [exact D1|]. exists n1. auto.
Qed.

Lemma appends_try_catch {A} (m : M A) (h : string -> M A) :
  appends_only P m -> (forall e, appends_only P (h e)) -> appends_only P (try_catch m h).
Proof.
  intros Hm Hh env w H. unfold try_catch.
  destruct (Hm env w H) as [D1 [n1 [T1 F1]]].
  destruct (m env w) as [w1 [a|e]]; simpl in *.
  - split; [exact D1|]. exists n1. auto.
  - destruct (Hh e env w1 D1) as [D2 [n2 [T2 F2]]]. split; [exact D2|].
    exists (n1 ++ n2). rewrite T2, T1, app_assoc. split; [reflexivity|].
    apply Forall_app; auto.
Qed.
End Appends.

Create HintDb appends.
Global Hint Resolve appends_ret appends_throw appends_ask appends_lift appends_uuidv4
  appends_getSession appends_bind appends_try_catch : appends.

(** Solve [appends_only] goals by following the program's structure. *)
Ltac appends_tac :=
  repeat match goal with
  | |- appends_only _ (bind _ _) => apply appends_bind; [|intros ?]
  | |- appends_only _ (try_catch _ _) => apply appends_try_catch; [|intros ?]
  | |- appends_only _ (run _ _) => apply appends_run
  | |- appends_only _ (emit _) => apply appends_emit
  | |- appends_only _ (if ?b then _ else _) => destruct b
  | |- appends_only _ (match ?x with _ => _ end) => destruct x
  | |- appends_only _ _ => solve [eauto with appends]
  end.

Lemma appends_createKNNRelationships :
  appends_only graph_request (createKNNRelationships getSession 5).
Proof.
  unfold createKNNRelationships. appends_tac; unfold graph_request; tauto.
Qed.

Lemma appends_createOrUpdateVectorIndex :
  appends_only maintenance_request (createOrUpdateVectorIndex getSession).
Proof.
  unfold createOrUpdateVectorIndex, getEmbeddingDimensions. appends_tac;
    unfold maintenance_request, graph_request; eauto.
Qed.

Lemma appends_weaken (P Q : Event -> Prop) {A} (m : M A) :
  (forall e, P e -> Q e) -> appends_only P m -> appends_only Q m.
Proof.
  intros HPQ Hm env w H. destruct (Hm env w H) as [D [nw [T F]]].
  split; [exact D|]. exists nw. split; [exact T|]. exact (Forall_impl _ HPQ F).
Qed.

Lemma appends_update_body : appends_only maintenance_request update_body.
Proof.
  unfold update_body, projectGraph.
  apply appends_try_catch; [|intros; apply appends_ret].
  apply appends_bind; [exact appends_createOrUpdateVectorIndex|intros _].
  appends_tac; try (unfold maintenance_request, graph_request; tauto).
  apply (appends_weaken graph_request); [unfold maintenance_request; tauto|].
  exact appends_createKNNRelationships.
Qed.

Lemma try_catch_unit (m : M unit) (env : Env) (w : World) :
  snd (try_catch m (fun _ => ret tt) env w) = Normal tt.
Proof. unfold try_catch. destruct (m env w) as [w1 [[]|e]]; reflexivity. Qed.

Lemma update_unfold (env : Env) (w : World) :
  driver w = true ->
  updateGraphAndRelationships getSession env w =
  update_body env (mkWorld (db w) (driver w) (trace w ++ [EPipeline]) (uuid w)).
Proof.
  intros H. unfold updateGraphAndRelationships. cbv [bind emit].
  rewrite getSession_inited by exact H. reflexivity.
Qed.

(** With the adapter initialized, the maintenance pass never throws: it
    records [EPipeline], then maintenance statements only. *)
Lemma update_shape (env : Env) (w : World) :
  driver w = true ->
  snd (updateGraphAndRelationships getSession env w) = Normal tt /\
  driver (fst (updateGraphAndRelationships getSession env w)) = true /\
  exists nw, trace (fst (updateGraphAndRelationships getSession env w)) =
             trace w ++ EPipeline :: nw /\ Forall maintenance_request nw.
Proof.
  intros H. rewrite update_unfold by exact H.
  split; [apply try_catch_unit|].
  destruct (appends_update_body env (mkWorld (db w) (driver w) (trace w ++ [EPipeline]) (uuid w)) H)
    as [D [nw [T F]]].
  split; [exact D|]. exists nw. rewrite T. simpl. rewrite <- app_assoc. auto.
Qed.

Lemma appends_update (P : Event -> Prop) :
  P EPipeline -> (forall e, maintenance_request e -> P e) ->
  appends_only P (updateGraphAndRelationships getSession).
Proof.
  intros HP HM env w H. destruct (update_shape env w H) as [_ [D [nw [T F]]]].
  split; [exact D|]. exists (EPipeline :: nw). split; [exact T|].
  constructor; [exact HP|]. exact (Forall_impl _ HM F).
Qed.

Lemma no_embeddings_find (d : DB) :
  no_embeddings d ->
  find (fun n => has_label "Chunk" n && match embedding n with Some _ => true | None => false end)
       (nodes d) = None.
Proof.
  unfold no_embeddings. destruct d as [ns rs gp vi nn]. simpl.
  induction ns as [|n ns IH]; intros H; simpl; [reflexivity|].
  destruct (has_label "Chunk" n) eqn:L.
  - rewrite (H n (or_introl eq_refl) L). simpl. apply IH. intros m Hm. apply H. now right.
  - simpl. apply IH. intros m Hm. apply H. now right.
Qed.

Lemma update_no_fail_trace (env : Env) (w : World) :
  driver w = true -> no_embeddings (db w) -> (forall r, run_fails env r = None) ->
  trace (fst (updateGraphAndRelationships getSession env w)) =
  trace w ++ [EPipeline; ERun QEmbeddingDim; ERun QGraphExists] ++
  (if graphProjected (db w) then [ERun QGraphDrop] else []) ++
  [ERun QGraphProject; ERun QDeleteSimilar; ERun (QKnnWrite 5)].
Proof.
  intros H HE Hf. rewrite update_unfold by exact H.
  destruct w as [d dr tr u]. simpl in H, HE |- *. subst dr.
  unfold update_body, createOrUpdateVectorIndex, getEmbeddingDimensions, projectGraph,
    createKNNRelationships.
  cbv [bind try_catch run ret].
  repeat (first [rewrite getSession_inited by reflexivity | rewrite Hf
                | rewrite (no_embeddings_find d HE)]; cbn -[getSession find]).
  destruct (graphProjected d) eqn:G; cbn -[getSession find];
  unfold sem_graph_drop, sem_graph_project, sem_knn_write; rewrite ?G; cbn -[getSession find];
  repeat (first [rewrite getSession_inited by reflexivity | rewrite Hf]; cbn -[getSession find]);
  rewrite <- !app_assoc; reflexivity.
Qed.

Lemma cuvi_no_embeddings (env : Env) (w : World) :
  driver w = true -> no_embeddings (db w) ->
  createOrUpdateVectorIndex getSession env w =
  (mkWorld (db w) true (trace w ++ [ERun QEmbeddingDim]) (uuid w), Normal tt).
Proof.
  intros H HE. destruct w as [d dr tr u]. simpl in H, HE |- *. subst dr.
  unfold createOrUpdateVectorIndex, getEmbeddingDimensions.
  cbv [bind try_catch run ret].
  rewrite getSession_inited by reflexivity. cbn -[getSession find].
  rewrite getSession_inited by reflexivity. cbn -[getSession find].
  destruct (run_fails env QEmbeddingDim); cbn -[find]; [reflexivity|].
  rewrite (no_embeddings_find d HE). reflexivity.
Qed.

Lemma appends_write_cached (ns d : string) (chunks : list (Meta * list Q)) :
  appends_only (fun e => e <> EPipeline) (write_cached ns d chunks).
Proof.
  induction chunks as [|[m values] cs IH]; simpl; [apply appends_ret|].
  apply appends_bind; [apply appends_uuidv4|intros cid].
  apply appends_bind; [apply appends_run; discriminate|intros _]. exact IH.
Qed.

Lemma appends_write_chunks (ns d : string) (metadata : Meta) (textChunks : list string)
  (vs : list (list Q)) : forall i,
  appends_only (fun e => e <> EPipeline) (write_chunks ns d metadata textChunks i vs).
Proof.
  induction vs as [|v vs IH]; intros i; simpl; [apply appends_ret|].
  apply appends_bind; [apply appends_uuidv4|intros cid].
  apply appends_bind; [apply appends_run; discriminate|intros _]. apply IH.
Qed.

Lemma add_pipeline_once (env : Env) (w : World) (ns : string) (dd : DocumentData)
  (path : option string) (skipCache : bool) :
  driver w = true ->
  snd (addDocumentToNamespace ns dd path skipCache env w) = Normal (AddResult true None) ->
  exists pre post,
    trace (fst (addDocumentToNamespace ns dd path skipCache env w)) =
      trace w ++ pre ++ EPipeline :: post /\
    Forall (fun e => e <> EPipeline) pre /\ Forall maintenance_request post.
Proof.
  intros H. unfold addDocumentToNamespace.
  cbv [bind try_catch ask ret]. rewrite getSession_inited by exact H.
  destruct (String.eqb (dd_pageContent dd) ""); [discriminate|].
  destruct (if skipCache then cachedVectorInformation env path else None) as [chunks|].
  - destruct (appends_write_cached ns (dd_docId dd) chunks env w H) as [D1 [n1 [T1 F1]]].
    destruct (write_cached ns (dd_docId dd) chunks env w) as [w1 [[]|e]]; simpl in D1, T1;
      [|discriminate].
    destruct (update_shape env w1 D1) as [R [_ [nw [T F]]]].
    destruct (updateGraphAndRelationships getSession env w1) as [w2 c2].
    simpl in R, T. subst c2. intros _. simpl.
    exists n1, nw. rewrite T, T1, <- app_assoc. auto.
  - cbv [emit lift throw].
    set (w0 := mkWorld (db w) (driver w) (trace w ++ [EEmbedChunks (splitText env (dd_pageContent dd))]) (uuid w)).
    destruct (embedChunks env (splitText env (dd_pageContent dd))) as [[[|v vs]|]|e];
      try discriminate.
    destruct (appends_write_chunks ns (dd_docId dd) (dd_metadata dd)
                (splitText env (dd_pageContent dd)) (v :: vs) 0 env w0 H) as [D1 [n1 [T1 F1]]].
    destruct (write_chunks ns (dd_docId dd) (dd_metadata dd)
                (splitText env (dd_pageContent dd)) 0 (v :: vs) env w0) as [w1 [[]|e]];
      simpl in D1, T1; [|discriminate].
    set (w1' := mkWorld (db w1) (driver w1) (trace w1 ++ [EStoreVectorResult]) (uuid w1)).
    destruct (update_shape env w1' D1) as [R [_ [nw [T F]]]].
    destruct (updateGraphAndRelationships getSession env w1') as [w2 c2].
    simpl in R, T. subst c2. intros _. simpl.
    exists ([EEmbedChunks (splitText env (dd_pageContent dd))] ++ n1 ++ [EStoreVectorResult]), nw.
    rewrite T. unfold w1'. simpl. rewrite T1. unfold w0. simpl.
    rewrite <- !app_assoc. split; [reflexivity|]. split; [|exact F].
    constructor; [discriminate|]. apply Forall_app. split; [exact F1|].
    constructor; [discriminate|constructor].
Qed.

Lemma delete_pipeline (env : Env) (w : World) (ns d : string) (b : bool) :
  driver w = true ->
  snd (deleteDocumentFromNamespace ns d env w) = Normal (JBool b) ->
  b = Nat.ltb 0 (List.length (filter (fun n => in_ns ns n && String.eqb (docId n) d) (nodes (db w)))) /\
  exists post,
    trace (fst (deleteDocumentFromNamespace ns d env w)) = trace w ++ ERun (QDeleteDoc ns d) :: post /\
    (b = false -> post = []) /\
    (b = true -> exists m, post = EPipeline :: m /\ Forall maintenance_request m).
Proof.
  intros H. unfold deleteDocumentFromNamespace.
  cbv [bind try_catch ret run]. rewrite getSession_inited by exact H.
  destruct (run_fails env (QDeleteDoc ns d)); [discriminate|].
  unfold sem_delete_doc. cbn -[updateGraphAndRelationships getSession Nat.ltb].
  rewrite length_map.
  set (c := List.length (filter (fun n => in_ns ns n && String.eqb (docId n) d) (nodes (db w)))).
  set (w1 := mkWorld _ (driver w) (trace w ++ [ERun (QDeleteDoc ns d)]) (uuid w)).
  destruct (Nat.ltb 0 c) eqn:L.
  - assert (D1 : driver w1 = true) by exact H.
    destruct (update_shape env w1 D1) as [R [_ [nw [T F]]]].
    destruct (updateGraphAndRelationships getSession env w1) as [w2 c2].
    simpl in R, T. subst c2. simpl. intros E. inversion E; subst b.
    split; [reflexivity|]. exists (EPipeline :: nw).
    rewrite T. unfold w1. simpl. rewrite <- app_assoc.
    split; [reflexivity|]. split; [discriminate|]. intros _. eauto.
  - simpl. intros E. inversion E; subst b.
    split; [reflexivity|]. exists []. split; [reflexivity|]. split; [auto|discriminate].
Qed.

(** C9 (counterexample).  The namespace holds one chunk without an
    embedding, the graph is projected and one SIMILAR_TO edge exists: the
    pass still drops and re-projects the graph and deletes and recomputes
    the KNN edges, which removes the existing edge. *)
Lemma C9_pass_not_noop :
  trace (fst (updateGraphAndRelationships getSession env0 (world_of db_unembedded))) =
    [EPipeline; ERun QEmbeddingDim; ERun QGraphExists; ERun QGraphDrop;
     ERun QGraphProject; ERun QDeleteSimilar; ERun (QKnnWrite 5)] /\
  rels db_unembedded <> [] /\
  rels (db (fst (updateGraphAndRelationships getSession env0 (world_of db_unembedded)))) = [].
Proof. vm_compute. split; [reflexivity|]. split; [discriminate|reflexivity]. Qed.

(** C9 (amended).  With the adapter initialized and no [Chunk] node
    holding an embedding, a maintenance pass returns normally and never
    issues the vector-index creation: after [EPipeline] and the dimension
    query it runs only the graph statements (exists, drop, project,
    delete SIMILAR_TO, KNN write).  When no statement fails, these are
    exactly: check, drop if projected, project, delete the edges, write
    the KNN edges. *)
Theorem C9_no_embeddings_pass (env : Env) (w : World) :
  driver w = true -> no_embeddings (db w) ->
  snd (updateGraphAndRelationships getSession env w) = Normal tt /\
  (exists rest,
     trace (fst (updateGraphAndRelationships getSession env w)) =
       trace w ++ EPipeline :: ERun QEmbeddingDim :: rest /\
     Forall graph_request rest) /\
  ((forall r, run_fails env r = None) ->
   trace (fst (updateGraphAndRelationships getSession env w)) =
   trace w ++ [EPipeline; ERun QEmbeddingDim; ERun QGraphExists] ++
   (if graphProjected (db w) then [ERun QGraphDrop] else []) ++
   [ERun QGraphProject; ERun QDeleteSimilar; ERun (QKnnWrite 5)]).
Proof.
  intros H HE. split; [exact (proj1 (update_shape env w H))|].
  split; [|exact (update_no_fail_trace env w H HE)].
  rewrite update_unfold by exact H.
  set (w1 := mkWorld (db w) (driver w) (trace w ++ [EPipeline]) (uuid w)).
  assert (H1 : driver w1 = true) by exact H.
  assert (C : createOrUpdateVectorIndex getSession env w1 =
              (mkWorld (db w) true (trace w1 ++ [ERun QEmbeddingDim]) (uuid w), Normal tt))
    by exact (cuvi_no_embeddings env w1 H1 HE).
  set (w2 := mkWorld (db w) true (trace w1 ++ [ERun QEmbeddingDim]) (uuid w)) in C.
  set (K := fun _ : unit =>
         (graphExists <- run QGraphExists sem_graph_exists ;;
          (if graphExists then run QGraphDrop sem_graph_drop else ret tt) ;;
          projectGraph ;;
          createKNNRelationships getSession 5)).
  assert (E : update_body env w1 = try_catch (K tt) (fun _ => ret tt) env w2).
  { unfold update_body. cbv [try_catch bind]. rewrite C. reflexivity. }
  rewrite E.
  assert (A : appends_only graph_request (try_catch (K tt) (fun _ : string => ret tt))).
  { unfold K, projectGraph. apply appends_try_catch; [|intros; apply appends_ret].
    appends_tac; try (unfold graph_request; tauto).
    exact appends_createKNNRelationships. }
  destruct (A env w2 eq_refl) as [_ [nw [T F]]].
  exists nw. rewrite T. simpl. rewrite <- !app_assoc. split; [reflexivity|exact F].
Qed.

Lemma C9_no_embeddings_pass_witness :
  driver (world_of db_projected_empty) = true /\ no_embeddings (db (world_of db_projected_empty)) /\
  snd (updateGraphAndRelationships getSession env0 (world_of db_projected_empty)) = Normal tt.
Proof.
  assert (H : driver (world_of db_projected_empty) = true) by reflexivity.
  assert (HE : no_embeddings (db (world_of db_projected_empty))) by (intros n []).
  split; [exact H|]. split; [exact HE|].
  exact (proj1 (C9_no_embeddings_pass env0 (world_of db_projected_empty) H HE)).
Defined.

(** C8 (counterexample).  On an adapter whose driver is not yet set, one
    [addDocumentToNamespace] call runs the maintenance pipeline twice:
    [getSession] runs [initialize], whose own pass comes before any chunk
    is written, and the call then runs its pass after the writes. *)
Lemma C8_uninitialized_add_runs_pipeline_twice :
  let r := addDocumentToNamespace "acme" dd_hello None false env0 (world_uninit db_empty) in
  snd r = Normal (AddResult true None) /\
  List.length (filter is_pipeline (trace (fst r))) = 2%nat /\
  trace (fst r) =
    [EVerifyConnectivity; ERun QGraphExists; ERun QGraphProject;
     EPipeline; ERun QEmbeddingDim; ERun QGraphExists; ERun QGraphDrop;
     ERun QGraphProject; ERun QDeleteSimilar; ERun (QKnnWrite 5);
     EEmbedChunks ["hello"];
     ERun (QCreateChunk "acme" "d1" 0 (Some "hello") [("text", "hello")] [1; 0]);
     EStoreVectorResult;
     EPipeline; ERun QEmbeddingDim; ERun (QCreateVectorIndex 2); ERun QGraphExists;
     ERun QGraphDrop; ERun QGraphProject; ERun QDeleteSimilar; ERun (QKnnWrite 5)].
Proof. vm_compute. split; [reflexivity|]. split; reflexivity. Qed.

(** C8 (amended).  With the adapter initialized: an
    [addDocumentToNamespace] call that returns [{vectorized: true}] records
    exactly one [EPipeline], after every event of the call that is not a
    maintenance statement (so after all chunk writes), and only
    maintenance statements follow it; a [deleteDocumentFromNamespace]
    call returning [b] has [b] true exactly when some chunk of the
    document was deleted, and after the delete statement it records one
    [EPipeline] followed by maintenance statements when [b] is true, and
    nothing when [b] is false. *)
Theorem C8_pipeline_once_initialized (env : Env) (w : World) (ns : string)
  (dd : DocumentData) (path : option string) (skipCache : bool) (d : string) :
  driver w = true ->
  (snd (addDocumentToNamespace ns dd path skipCache env w) = Normal (AddResult true None) ->
   exists pre post,
     trace (fst (addDocumentToNamespace ns dd path skipCache env w)) =
       trace w ++ pre ++ EPipeline :: post /\
     Forall (fun e => e <> EPipeline) pre /\ Forall maintenance_request post) /\
  (forall b, snd (deleteDocumentFromNamespace ns d env w) = Normal (JBool b) ->
   b = Nat.ltb 0 (List.length (filter (fun n => in_ns ns n && String.eqb (docId n) d)
                                      (nodes (db w)))) /\
   exists post,
     trace (fst (deleteDocumentFromNamespace ns d env w)) =
       trace w ++ ERun (QDeleteDoc ns d) :: post /\
     (b = false -> post = []) /\
     (b = true -> exists m, post = EPipeline :: m /\ Forall maintenance_request m)).
Proof.
  intros H. split.
  - exact (add_pipeline_once env w ns dd path skipCache H).
  - intros b. exact (delete_pipeline env w ns d b H).
Qed.

Lemma C8_pipeline_once_initialized_witness :
  exists pre post,
    trace (fst (addDocumentToNamespace "acme" dd_hello None false env0 (world_of db_empty))) =
      [] ++ pre ++ EPipeline :: post /\
    Forall (fun e => e <> EPipeline) pre /\ Forall maintenance_request post.
Proof.
  apply (proj1 (C8_pipeline_once_initialized env0 (world_of db_empty) "acme" dd_hello None false
                  "d1" eq_refl)).
  vm_compute. reflexivity.
Defined.

(** C7.  With the adapter initialized: an empty [pageContent] makes
    [addDocumentToNamespace] return [false] with the graph and the trace
    untouched; when the document is embedded (no cache used) and the batch
    embedding yields [undefined] or an empty array, it returns
    [{vectorized: false, error: "Could not embed document chunks!"}] and
    the graph is left as it was: no chunk is written. *)
Theorem C7_add_empty_and_embed_failure (env : Env) (w : World) (ns : string)
  (dd : DocumentData) (path : option string) (skipCache : bool) :
  driver w = true ->
  (dd_pageContent dd = "" ->
   addDocumentToNamespace ns dd path skipCache env w = (w, Normal AddFalse)) /\
  (dd_pageContent dd <> "" ->
   (skipCache = false \/ cachedVectorInformation env path = None) ->
   (embedChunks env (splitText env (dd_pageContent dd)) = Normal None \/
    embedChunks env (splitText env (dd_pageContent dd)) = Normal (Some [])) ->
   snd (addDocumentToNamespace ns dd path skipCache env w) =
     Normal (AddResult false (Some "Could not embed document chunks!")) /\
   db (fst (addDocumentToNamespace ns dd path skipCache env w)) = db w).
Proof.
  intros H. unfold addDocumentToNamespace.
  cbv [bind try_catch ask ret]. rewrite getSession_inited by exact H. split.
  - intros E. rewrite E. reflexivity.
  - intros E C F. apply String.eqb_neq in E. rewrite E.
    assert (N : (if skipCache then cachedVectorInformation env path else None) = None)
      by (destruct C as [C|C]; [rewrite C|destruct skipCache; [exact C|]]; reflexivity).
    rewrite N. cbv [emit lift throw].
    destruct F as [F|F]; rewrite F; split; reflexivity.
Qed.

Lemma C7_add_empty_and_embed_failure_witness :
  addDocumentToNamespace "acme" (mkDocumentData "" "d1" []) None false env0
    (world_of db_empty) = (world_of db_empty, Normal AddFalse) /\
  snd (addDocumentToNamespace "acme" (mkDocumentData "text" "d1" []) None false env_embed_none
    (world_of db_empty)) = Normal (AddResult false (Some "Could not embed document chunks!")).
Proof.
  split.
  - apply (proj1 (C7_add_empty_and_embed_failure env0 (world_of db_empty) "acme"
                    (mkDocumentData "" "d1" []) None false eq_refl)).
    reflexivity.
  - apply (proj2 (C7_add_empty_and_embed_failure env_embed_none (world_of db_empty) "acme"
                    (mkDocumentData "text" "d1" []) None false eq_refl)).
    + discriminate.
    + left. reflexivity.
    + left. reflexivity.
Defined.

(** ** Invariants of the graph kept by a computation *)

Section Stable.
Variable R : DB -> DB -> Prop.
Hypothesis R_refl : forall d, R d d.
Hypothesis R_trans : forall d1 d2 d3, R d1 d2 -> R d2 d3 -> R d1 d3.

Lemma stable_ret {A} (a : A) : stable R (ret a).
Proof. intros env w. apply R_refl. Qed.
Lemma stable_throw {A} (e : string) : stable R (@throw A e).
Proof. intros env w. apply R_refl. Qed.
Lemma stable_ask : stable R ask.
Proof. intros env w. apply R_refl. Qed.
Lemma stable_lift {A} (c : Completion A) : stable R (lift c).
Proof. intros env w. apply R_refl. Qed.
Lemma stable_emit (e : Event) : stable R (emit e).
Proof. intros env w. apply R_refl. Qed.
Lemma stable_uuidv4 : stable R uuidv4.
Proof. intros env w. apply R_refl. Qed.
Lemma stable_set_driver : stable R set_driver.
Proof. intros env w. apply R_refl. Qed.

Lemma stable_run {A} (r : Request) (sem : Env -> DB -> Completion (DB * A)) :
  sem_respects R sem -> stable R (run r sem).
Proof.
  intros Hs env w. unfold run.
  destruct (run_fails env r); [apply R_refl|].
  destruct (sem env _) as [[d' a]|e] eqn:E; simpl; [|apply R_refl].
  exact (Hs _ _ _ _ E).
Qed.

Lemma stable_bind {A B} (m : M A) (k : A -> M B) :
  stable R m -> (forall a, stable R (k a)) -> stable R (bind m k).
Proof.
  intros Hm Hk env w. unfold bind. pose proof (Hm env w) as H1.
  destruct (m env w) as [w1 [a|e]]; simpl in *; [|exact H1].
  exact (R_trans _ _ _ H1 (Hk a env w1)).
Qed.

Lemma stable_try_catch {A} (m : M A) (h : string -> M A) :
  stable R m -> (forall e, stable R (h e)) -> stable R (try_catch m h).
Proof.
  intros Hm Hh env w. unfold try_catch. pose proof (Hm env w) as H1.
  destruct (m env w) as [w1 [a|e]]; simpl in *; [exact H1|].
  exact (R_trans _ _ _ H1 (Hh e env w1)).
Qed.

Ltac stable_tac :=
  repeat match goal with
  | |- stable _ (bind _ _) => apply stable_bind; [|intros ?]
  | |- stable _ (try_catch _ _) => apply stable_try_catch; [|intros ?]
  | |- stable _ (run _ _) => apply stable_run
  | |- stable _ (ret _) => apply stable_ret
  | |- stable _ (throw _) => apply stable_throw
  | |- stable _ ask => apply stable_ask
  | |- stable _ (lift _) => apply stable_lift
  | |- stable _ (emit _) => apply stable_emit
  | |- stable _ uuidv4 => apply stable_uuidv4
  | |- stable _ set_driver => apply stable_set_driver
  | |- stable _ (if ?b then _ else _) => destruct b
  | |- stable _ (match ?x with _ => _ end) => destruct x
  end.

(** The statements of the maintenance pass and of [initialize]. *)
Hypothesis R_exists : sem_respects R sem_graph_exists.
Hypothesis R_drop : sem_respects R sem_graph_drop.
Hypothesis R_project : sem_respects R sem_graph_project.
Hypothesis R_delete_similar : sem_respects R sem_delete_similar.
Hypothesis R_knn : sem_respects R (sem_knn_write 5).
Hypothesis R_dim : sem_respects R sem_embedding_dim.
Hypothesis R_index : forall d, sem_respects R (sem_create_index d).

Lemma stable_update (gs : M unit) :
  stable R gs -> stable R (updateGraphAndRelationships gs).
Proof.
  intros Hgs. unfold updateGraphAndRelationships, createOrUpdateVectorIndex,
    getEmbeddingDimensions, projectGraph, createKNNRelationships.
  stable_tac; auto.
Qed.

Lemma stable_initialize (gs : M unit) : stable R gs -> stable R (initialize gs).
Proof.
  intros Hgs. unfold initialize, verifyConnectivity, projectGraph.
  stable_tac; auto. apply stable_update. exact Hgs.
Qed.

Lemma stable_getSession_fuel (n : nat) : stable R (getSession_fuel n).
Proof.
  induction n as [|n IH]; intros env w; simpl.
  - destruct (driver w); apply R_refl.
  - destruct (driver w); [apply R_refl|]. exact (stable_initialize _ IH env w).
Qed.

Lemma stable_getSession : stable R getSession.
Proof. apply stable_getSession_fuel. Qed.

Lemma stable_update_getSession : stable R (updateGraphAndRelationships getSession).
Proof. apply stable_update, stable_getSession. Qed.

Hypothesis R_knn_cutoff : sem_respects R sem_knn_write_cutoff.
Hypothesis R_create_chunk :
  forall ns d cid pc m e, sem_respects R (sem_create_chunk ns d cid pc m e).

Lemma stable_createGraphProjection : stable R createGraphProjection.
Proof.
  unfold createGraphProjection, projectGraph.
  apply stable_bind; [apply stable_getSession|intros _]. stable_tac; auto.
Qed.

Lemma stable_updateGraphProjectionAndKNN : stable R updateGraphProjectionAndKNN.
Proof.
  unfold updateGraphProjectionAndKNN, projectGraph.
  apply stable_bind; [apply stable_getSession|intros _]. stable_tac; auto.
Qed.

Lemma stable_write_cached (ns d : string) (chunks : list (Meta * list Q)) :
  stable R (write_cached ns d chunks).
Proof. induction chunks as [|[m v] cs IH]; simpl; stable_tac; auto. Qed.

Lemma stable_write_chunks (ns d : string) (metadata : Meta) (textChunks : list string)
  (vs : list (list Q)) : forall i, stable R (write_chunks ns d metadata textChunks i vs).
Proof. induction vs as [|v vs IH]; intros i; simpl; stable_tac; auto. Qed.

Lemma stable_add (ns : string) (dd : DocumentData) (path : option string) (skipCache : bool) :
  stable R (addDocumentToNamespace ns dd path skipCache).
Proof.
  unfold addDocumentToNamespace.
  apply stable_bind; [apply stable_getSession|intros _].
  stable_tac; auto using stable_write_cached, stable_write_chunks, stable_update_getSession.
Qed.
End Stable.

(** ** Relations between graphs *)

Ltac respects_tac :=
  let E := fresh "E" in
  intros * E;
  cbv [sem_graph_exists sem_graph_drop sem_graph_project sem_delete_similar sem_knn_write
       sem_embedding_dim sem_create_index sem_knn_write_cutoff sem_create_chunk
       set_projected set_rels set_vectorIndex] in E;
  repeat match type of E with
         | context [if ?b then _ else _] => destruct b
         | context [match vectorIndex ?d with _ => _ end] => destruct (vectorIndex d)
         end;
  try discriminate; inversion E; subst; simpl.

Lemma same_nodes_refl (d : DB) : same_nodes d d.
Proof. reflexivity. Qed.
Lemma same_nodes_trans (d1 d2 d3 : DB) : same_nodes d1 d2 -> same_nodes d2 d3 -> same_nodes d1 d3.
Proof. unfold same_nodes. congruence. Qed.
Lemma keeps_index_refl (d : DB) : keeps_index d d.
Proof. unfold keeps_index. auto. Qed.
Lemma keeps_index_trans (d1 d2 d3 : DB) :
  keeps_index d1 d2 -> keeps_index d2 d3 -> keeps_index d1 d3.
Proof. unfold keeps_index. auto. Qed.
Lemma nodes_extended_refl (d : DB) : nodes_extended d d.
Proof. exists []. now rewrite app_nil_r. Qed.
Lemma nodes_extended_trans (d1 d2 d3 : DB) :
  nodes_extended d1 d2 -> nodes_extended d2 d3 -> nodes_extended d1 d3.
Proof.
  intros [l1 E1] [l2 E2]. exists (l1 ++ l2). now rewrite E2, E1, app_assoc.
Qed.

Lemma same_nodes_stable_update :
  stable same_nodes (updateGraphAndRelationships getSession).
Proof.
  apply (stable_update_getSession same_nodes same_nodes_refl same_nodes_trans);
    unfold sem_respects, same_nodes; respects_tac; reflexivity.
Qed.

Lemma keeps_index_stable_update :
  stable keeps_index (updateGraphAndRelationships getSession).
Proof.
  apply (stable_update_getSession keeps_index keeps_index_refl keeps_index_trans);
    unfold sem_respects, keeps_index; respects_tac; auto; discriminate.
Qed.

Lemma nodes_extended_stable_add (ns : string) (dd : DocumentData) (path : option string)
  (skipCache : bool) : stable nodes_extended (addDocumentToNamespace ns dd path skipCache).
Proof.
  apply (stable_add nodes_extended nodes_extended_refl nodes_extended_trans);
    unfold sem_respects, nodes_extended; respects_tac;
    solve [exists []; now rewrite app_nil_r | eexists; reflexivity].
Qed.

Lemma labels_in_ns (ns : string) (n : Node) : labels n = ["Chunk"; ns] -> in_ns ns n = true.
Proof.
  intros L. unfold in_ns, has_label. rewrite L. simpl.
  rewrite String.eqb_refl. simpl. now rewrite Bool.orb_true_r.
Qed.

Lemma write_chunks_ok (env : Env) (ns d : string) (m : Meta) (tcs : list string)
  (vs : list (list Q)) :
  (forall r, run_fails env r = None) -> forall i w,
  snd (write_chunks ns d m tcs i vs env w) = Normal tt /\
  driver (fst (write_chunks ns d m tcs i vs env w)) = driver w /\
  exists new,
    nodes (db (fst (write_chunks ns d m tcs i vs env w))) = nodes (db w) ++ new /\
    map embedding new = map Some vs /\
    map pageContent new = map (fun j => nth_error tcs j) (seq i (List.length vs)) /\
    Forall (fun n => docId n = d /\ labels n = ["Chunk"; ns]) new.
Proof.
  intros Hf. induction vs as [|v vs IH]; intros i w.
  - simpl. split; [reflexivity|]. split; [reflexivity|]. exists [].
    rewrite app_nil_r. auto.
  - cbn [write_chunks]. cbv [bind uuidv4 run]. rewrite Hf. cbn -[write_chunks].
    match goal with |- context [write_chunks ns d m tcs (S i) vs env ?w2] => set (w2' := w2) end.
    destruct (IH (S i) w2') as [R [D [new [N [E [P F]]]]]].
    split; [exact R|]. split; [exact D|].
    exists (mkNode (next_nid (db w)) ["Chunk"; ns] d (uuid w) (nth_error tcs i)
              (match nth_error tcs i with Some s => meta_set "text" s m
               | None => meta_remove "text" m end) (Some v) :: new).
    rewrite N. unfold w2'. simpl. rewrite <- app_assoc. split; [reflexivity|].
    simpl. rewrite E, P. split; [reflexivity|]. split; [reflexivity|].
    constructor; [split; reflexivity|exact F].
Qed.

Lemma delete_ok (env : Env) (w : World) (ns d : string) :
  driver w = true -> (forall r, run_fails env r = None) ->
  snd (deleteDocumentFromNamespace ns d env w) =
    Normal (JBool (Nat.ltb 0 (List.length (filter (fun n => in_ns ns n && String.eqb (docId n) d)
                                                 (nodes (db w)))))) /\
  nodes (db (fst (deleteDocumentFromNamespace ns d env w))) =
    filter (fun n => negb (in_ns ns n && String.eqb (docId n) d)) (nodes (db w)) /\
  driver (fst (deleteDocumentFromNamespace ns d env w)) = true /\
  (List.length (filter (fun n => in_ns ns n && String.eqb (docId n) d) (nodes (db w))) = O ->
   trace (fst (deleteDocumentFromNamespace ns d env w)) = trace w ++ [ERun (QDeleteDoc ns d)]).
Proof.
  intros H Hf. unfold deleteDocumentFromNamespace.
  cbv [bind try_catch ret run]. rewrite getSession_inited by exact H. rewrite Hf.
  unfold sem_delete_doc. cbn -[updateGraphAndRelationships getSession Nat.ltb].
  rewrite length_map.
  set (c := List.length (filter (fun n => in_ns ns n && String.eqb (docId n) d) (nodes (db w)))).
  set (w1 := mkWorld _ (driver w) (trace w ++ [ERun (QDeleteDoc ns d)]) (uuid w)).
  destruct (Nat.ltb 0 c) eqn:L.
  - assert (D1 : driver w1 = true) by exact H.
    destruct (update_shape env w1 D1) as [R [D [nw [T F]]]].
    pose proof (same_nodes_stable_update env w1) as N. unfold same_nodes in N.
    destruct (updateGraphAndRelationships getSession env w1) as [w2 c2].
    simpl in R, T, D, N. subst c2. simpl. split; [reflexivity|].
    split; [exact N|]. split; [exact D|]. intros C. rewrite C in L. discriminate.
  - simpl. split; [reflexivity|]. split; [reflexivity|]. split; [exact H|]. reflexivity.
Qed.

Lemma add_ok (env : Env) (w : World) (ns : string) (dd : DocumentData)
  (path : option string) (skipCache : bool) (vs : list (list Q)) :
  driver w = true -> (forall r, run_fails env r = None) -> dd_pageContent dd <> "" ->
  (skipCache = false \/ cachedVectorInformation env path = None) ->
  embedChunks env (splitText env (dd_pageContent dd)) = Normal (Some vs) -> vs <> [] ->
  snd (addDocumentToNamespace ns dd path skipCache env w) = Normal (AddResult true None) /\
  driver (fst (addDocumentToNamespace ns dd path skipCache env w)) = true /\
  exists new,
    nodes (db (fst (addDocumentToNamespace ns dd path skipCache env w))) = nodes (db w) ++ new /\
    map embedding new = map Some vs /\
    map pageContent new =
      map (fun j => nth_error (splitText env (dd_pageContent dd)) j) (seq 0 (List.length vs)) /\
    Forall (fun n => docId n = dd_docId dd /\ labels n = ["Chunk"; ns]) new.
Proof.
  intros H Hf Hpc C Emb Hvs. unfold addDocumentToNamespace.
  cbv [bind try_catch ask ret]. rewrite getSession_inited by exact H.
  apply String.eqb_neq in Hpc. rewrite Hpc.
  assert (N : (if skipCache then cachedVectorInformation env path else None) = None)
    by (destruct C as [C|C]; [rewrite C|destruct skipCache; [exact C|]]; reflexivity).
  rewrite N. cbv [emit lift]. rewrite Emb.
  destruct vs as [|v vs]; [contradiction|].
  set (w0 := mkWorld (db w) (driver w)
               (trace w ++ [EEmbedChunks (splitText env (dd_pageContent dd))]) (uuid w)).
  destruct (write_chunks_ok env ns (dd_docId dd) (dd_metadata dd)
              (splitText env (dd_pageContent dd)) (v :: vs) Hf 0 w0)
    as [R1 [D1 [new [N1 [E1 [P1 F1]]]]]].
  destruct (write_chunks ns (dd_docId dd) (dd_metadata dd)
              (splitText env (dd_pageContent dd)) 0 (v :: vs) env w0) as [w1 c1].
  simpl in R1, D1, N1. subst c1.
  set (w1' := mkWorld (db w1) (driver w1) (trace w1 ++ [EStoreVectorResult]) (uuid w1)).
  assert (D1' : driver w1' = true) by (simpl; rewrite D1; exact H).
  destruct (update_shape env w1' D1') as [R [D [_ _]]].
  pose proof (same_nodes_stable_update env w1') as N2. unfold same_nodes in N2.
  destruct (updateGraphAndRelationships getSession env w1') as [w2 c2].
  simpl in R, D, N2. subst c2. simpl.
  split; [reflexivity|]. split; [exact D|]. exists new.
  rewrite N2. unfold w1'. simpl. rewrite N1. unfold w0. simpl. auto.
Qed.

Lemma filter_negb_app_new (ns d : string) (old new : list Node) :
  (forall n, In n old -> in_ns ns n && String.eqb (docId n) d = false) ->
  Forall (fun n => docId n = d /\ labels n = ["Chunk"; ns]) new ->
  filter (fun n => negb (in_ns ns n && String.eqb (docId n) d)) (old ++ new) = old /\
  List.length (filter (fun n => in_ns ns n && String.eqb (docId n) d) (old ++ new))
  = List.length new.
Proof.
  intros Hold Hnew. rewrite !filter_app.
  assert (A : filter (fun n => negb (in_ns ns n && String.eqb (docId n) d)) old = old).
  { clear Hnew. induction old as [|n old IH]; simpl; [reflexivity|].
    rewrite (Hold n (or_introl eq_refl)). simpl. f_equal. apply IH.
    intros m Hm. apply Hold. now right. }
  assert (B : filter (fun n => in_ns ns n && String.eqb (docId n) d) old = []).
  { clear Hnew A. induction old as [|n old IH]; simpl; [reflexivity|].
    rewrite (Hold n (or_introl eq_refl)). apply IH.
    intros m Hm. apply Hold. now right. }
  assert (Cn : forall n, In n new -> in_ns ns n && String.eqb (docId n) d = true).
  { intros n Hn. rewrite Forall_forall in Hnew. destruct (Hnew n Hn) as [Hd Hl].
    rewrite (labels_in_ns ns n Hl), Hd, String.eqb_refl. reflexivity. }
  rewrite A, B. clear A B Hold Hnew. split.
  - induction new as [|n new IH]; simpl; [apply app_nil_r|].
    rewrite (Cn n (or_introl eq_refl)). simpl. apply IH. intros m Hm. apply Cn. now right.
  - simpl. induction new as [|n new IH]; simpl; [reflexivity|].
    rewrite (Cn n (or_introl eq_refl)). simpl. f_equal. apply IH.
    intros m Hm. apply Cn. now right.
Qed.

Lemma filter_after_negb_filter {A} (p : A -> bool) (l : list A) :
  filter p (filter (fun x => negb (p x)) l) = [].
Proof.
  induction l as [|x l IH]; simpl; [reflexivity|].
  destruct (p x) eqn:P; simpl; [exact IH|]. rewrite P. exact IH.
Qed.

Lemma ltb_length_filter {A} (p : A -> bool) (l : list A) :
  Nat.ltb 0 (List.length (filter p l)) = existsb p l.
Proof.
  induction l as [|x l IH]; simpl; [reflexivity|].
  destruct (p x); simpl; [reflexivity|exact IH].
Qed.

(** ** Further properties of the adapter *)

(** X1.  The maintenance pass [updateGraphAndRelationships] never
    creates, deletes or changes a chunk node, and never replaces a vector
    index that exists, whatever statement fails and whether or not the
    adapter was initialized. *)
Theorem maintenance_keeps_chunks_and_index (env : Env) (w : World) :
  nodes (db (fst (updateGraphAndRelationships getSession env w))) = nodes (db w) /\
  (forall k, vectorIndex (db w) = Some k ->
   vectorIndex (db (fst (updateGraphAndRelationships getSession env w))) = Some k).
Proof.
  split; [exact (same_nodes_stable_update env w)|exact (keeps_index_stable_update env w)].
Qed.

(** X2.  [addDocumentToNamespace] only appends chunk nodes: the nodes
    before the call are kept, in order, whatever fails.  A failing call is
    not rolled back: when the second chunk write fails, the call returns
    [{vectorized: false, error}] and the first chunk stays in the graph. *)
Theorem add_only_appends_chunks (env : Env) (w : World) (ns : string) (dd : DocumentData)
  (path : option string) (skipCache : bool) :
  (exists l, nodes (db (fst (addDocumentToNamespace ns dd path skipCache env w))) =
             nodes (db w) ++ l) /\
  snd (addDocumentToNamespace "acme" dd_hello None false env_second_write_fails
         (world_of db_empty)) = Normal (AddResult false (Some "TransientError")) /\
  List.length (nodes (db (fst (addDocumentToNamespace "acme" dd_hello None false
         env_second_write_fails (world_of db_empty))))) = 1%nat.
Proof.
  split; [exact (nodes_extended_stable_add ns dd path skipCache env w)|].
  vm_compute. split; reflexivity.
Qed.

(** X3.  With the adapter initialized and no statement failing, adding a
    document that is embedded (cache not used) into [vs], a non-empty list
    of vectors, returns [{vectorized: true}] and appends one chunk node per
    vector, in order: it carries the label [ns], the document's [docId],
    the vector as embedding, and the text chunk of the same index as
    [pageContent] (none when there are fewer text chunks than vectors). *)
Theorem add_writes_one_chunk_per_vector (env : Env) (w : World) (ns : string)
  (dd : DocumentData) (path : option string) (skipCache : bool) (vs : list (list Q)) :
  driver w = true -> (forall r, run_fails env r = None) -> dd_pageContent dd <> "" ->
  (skipCache = false \/ cachedVectorInformation env path = None) ->
  embedChunks env (splitText env (dd_pageContent dd)) = Normal (Some vs) -> vs <> [] ->
  snd (addDocumentToNamespace ns dd path skipCache env w) = Normal (AddResult true None) /\
  exists new,
    nodes (db (fst (addDocumentToNamespace ns dd path skipCache env w))) = nodes (db w) ++ new /\
    map embedding new = map Some vs /\
    map pageContent new =
      map (fun j => nth_error (splitText env (dd_pageContent dd)) j) (seq 0 (List.length vs)) /\
    Forall (fun n => docId n = dd_docId dd /\ in_ns ns n = true) new.
Proof.
  intros H Hf Hpc C Emb Hvs.
  destruct (add_ok env w ns dd path skipCache vs H Hf Hpc C Emb Hvs)
    as [R [_ [new [N [E [P F]]]]]].
  split; [exact R|]. exists new. split; [exact N|]. split; [exact E|]. split; [exact P|].
  revert F. apply Forall_impl. intros n [Hd Hl]. split; [exact Hd|]. exact (labels_in_ns ns n Hl).
Qed.

Lemma add_writes_one_chunk_per_vector_witness :
  snd (addDocumentToNamespace "acme" dd_hello None false env0 (world_of db_empty))
  = Normal (AddResult true None).
Proof.
  apply (proj1 (add_writes_one_chunk_per_vector env0 (world_of db_empty) "acme" dd_hello None
                  false [[1; 0]] eq_refl (fun _ => eq_refl) ltac:(discriminate)
                  (or_introl eq_refl) eq_refl ltac:(discriminate))).
Defined.

(** X4.  With the adapter initialized and no statement failing,
    [deleteDocumentFromNamespace ns d] returns whether a chunk of [ns] with
    [docId] [d] existed, and leaves exactly the other nodes, in order.
    Deleting the same document again returns [false] and issues only the
    delete statement (no maintenance pass). *)
Theorem delete_removes_document_chunks (env : Env) (w : World) (ns d : string) :
  driver w = true -> (forall r, run_fails env r = None) ->
  snd (deleteDocumentFromNamespace ns d env w) =
    Normal (JBool (existsb (fun n => in_ns ns n && String.eqb (docId n) d) (nodes (db w)))) /\
  nodes (db (fst (deleteDocumentFromNamespace ns d env w))) =
    filter (fun n => negb (in_ns ns n && String.eqb (docId n) d)) (nodes (db w)) /\
  snd (deleteDocumentFromNamespace ns d env (fst (deleteDocumentFromNamespace ns d env w))) =
    Normal (JBool false) /\
  trace (fst (deleteDocumentFromNamespace ns d env (fst (deleteDocumentFromNamespace ns d env w)))) =
    trace (fst (deleteDocumentFromNamespace ns d env w)) ++ [ERun (QDeleteDoc ns d)].
Proof.
  intros H Hf.
  destruct (delete_ok env w ns d H Hf) as [R1 [N1 [D1 _]]].
  destruct (delete_ok env (fst (deleteDocumentFromNamespace ns d env w)) ns d D1 Hf)
    as [R2 [_ [_ T2]]].
  rewrite N1, filter_after_negb_filter in R2, T2.
  split.
  - rewrite R1, ltb_length_filter. reflexivity.
  - split; [exact N1|]. split; [exact R2|]. apply T2. reflexivity.
Qed.

Lemma delete_removes_document_chunks_witness :
  nodes (db (fst (deleteDocumentFromNamespace "acme" "d1" env0 (world_of db_two_docs)))) =
    filter (fun n => negb (in_ns "acme" n && String.eqb (docId n) "d1")) (nodes db_two_docs).
Proof.
  apply (proj1 (proj2 (delete_removes_document_chunks env0 (world_of db_two_docs) "acme" "d1"
                         eq_refl (fun _ => eq_refl)))).
Defined.

(** X5.  Round trip: with the adapter initialized and no statement
    failing, adding a document (embedded into a non-empty list of vectors)
    whose [docId] has no chunk in [ns] yet, then deleting that [docId]
    from [ns], returns [true] and gives back exactly the chunk nodes there
    were before. *)
Theorem add_then_delete_restores_nodes (env : Env) (w : World) (ns : string)
  (dd : DocumentData) (path : option string) (skipCache : bool) (vs : list (list Q)) :
  driver w = true -> (forall r, run_fails env r = None) -> dd_pageContent dd <> "" ->
  (skipCache = false \/ cachedVectorInformation env path = None) ->
  embedChunks env (splitText env (dd_pageContent dd)) = Normal (Some vs) -> vs <> [] ->
  (forall n, In n (nodes (db w)) -> in_ns ns n && String.eqb (docId n) (dd_docId dd) = false) ->
  snd (deleteDocumentFromNamespace ns (dd_docId dd) env
         (fst (addDocumentToNamespace ns dd path skipCache env w))) = Normal (JBool true) /\
  nodes (db (fst (deleteDocumentFromNamespace ns (dd_docId dd) env
                    (fst (addDocumentToNamespace ns dd path skipCache env w))))) = nodes (db w).
Proof.
  intros H Hf Hpc C Emb Hvs Hnone.
  destruct (add_ok env w ns dd path skipCache vs H Hf Hpc C Emb Hvs)
    as [_ [D [new [N [E [_ F]]]]]].
  destruct (delete_ok env _ ns (dd_docId dd) D Hf) as [R2 [N2 _]].
  rewrite N in R2, N2.
  destruct (filter_negb_app_new ns (dd_docId dd) (nodes (db w)) new Hnone F) as [A B].
  rewrite B in R2. rewrite A in N2. split; [|exact N2].
  rewrite R2. destruct new as [|n new]; [|reflexivity].
  apply (f_equal (@List.length _)) in E. simpl in E. rewrite length_map in E.
  destruct vs; [contradiction|discriminate].
Qed.

Lemma add_then_delete_restores_nodes_witness :
  nodes (db (fst (deleteDocumentFromNamespace "acme" "d1" env0
                    (fst (addDocumentToNamespace "acme" dd_hello None false env0
                            (world_of db_empty)))))) = [].
Proof.
  apply (proj2 (add_then_delete_restores_nodes env0 (world_of db_empty) "acme" dd_hello None
                  false [[1; 0]] eq_refl (fun _ => eq_refl) ltac:(discriminate)
                  (or_introl eq_refl) eq_refl ltac:(discriminate)
                  (fun n (Hn : In n []) => match Hn with end))).
Defined.

Lemma bind_getSession_inited {A} (k : unit -> M A) (env : Env) (w : World) :
  driver w = true -> bind getSession k env w = k tt env w.
Proof. intros H. unfold bind. rewrite getSession_inited by exact H. reflexivity. Qed.

(** X6.  Once the adapter is initialized, the read operations
    [hasNamespace], [namespaceCount], [heartbeat], [namespaceStats] (with a
    namespace) and [performSimilaritySearch] leave the graph unchanged and
    never throw: a failure is returned as a value. *)
Theorem read_operations_keep_graph (env : Env) (w : World) (ns : string) (a : SearchArgs) :
  driver w = true ->
  (db (fst (hasNamespace ns env w)) = db w /\ exists v, snd (hasNamespace ns env w) = Normal v) /\
  (db (fst (namespaceCount ns env w)) = db w /\
   exists v, snd (namespaceCount ns env w) = Normal v) /\
  (db (fst (heartbeat env w)) = db w /\ exists v, snd (heartbeat env w) = Normal v) /\
  (ns <> "" -> db (fst (namespaceStats (Some ns) env w)) = db w /\
               exists v, snd (namespaceStats (Some ns) env w) = Normal v) /\
  (db (fst (performSimilaritySearch a env w)) = db w /\
   exists v, snd (performSimilaritySearch a env w) = Normal v).
Proof.
  intros H. split; [|split; [|split; [|split]]].
  - unfold hasNamespace. rewrite bind_getSession_inited by exact H.
    cbv [try_catch bind run ret]. destruct (run_fails env (QHasNamespace ns)); simpl; split; eauto.
  - unfold namespaceCount. rewrite bind_getSession_inited by exact H.
    cbv [try_catch bind run ret]. destruct (run_fails env (QNamespaceCount ns)); simpl; split; eauto.
  - unfold heartbeat. rewrite bind_getSession_inited by exact H.
    cbv [try_catch bind run ret]. destruct (run_fails env QReturnOne); simpl; split; eauto.
  - intros Hns. unfold namespaceStats. apply String.eqb_neq in Hns. rewrite Hns.
    rewrite bind_getSession_inited by exact H.
    cbv [try_catch bind run ret]. destruct (run_fails env (QNamespaceCount ns)); simpl; split; eauto.
  - unfold performSimilaritySearch, performEnhancedSimilaritySearch.
    rewrite bind_getSession_inited by exact H.
    cbv [try_catch bind ask emit lift run ret sem_search].
    destruct (embedTextInput env (input a)) as [qv|e]; [|simpl; split; eauto].
    destruct (run_fails env _); [simpl; split; eauto|].
    simpl. destruct (process_records _ _ _ _); simpl; split; eauto.
Qed.

Lemma read_operations_keep_graph_witness :
  db (fst (hasNamespace "acme" env0 (world_of db_two_docs))) = db_two_docs.
Proof.
  apply (proj1 (proj1 (read_operations_keep_graph env0 (world_of db_two_docs) "acme"
                         (args "acme" (1#4) 4 []) eq_refl))).
Defined.

(** X7.  [namespaceStats] throws ["namespace required"] when the namespace
    is absent or empty, before it opens a session: nothing is initialized,
    recorded or changed.  With a namespace, it behaves as [namespaceCount]
    (same statement, same graph and trace afterwards), returning
    [{vectorCount: n}] where [namespaceCount] returns [n] and the same
    [{error}] or exception. *)
Theorem namespaceStats_as_namespaceCount (env : Env) (w : World) (ns : string) :
  namespaceStats None env w = (w, Throw "namespace required") /\
  namespaceStats (Some "") env w = (w, Throw "namespace required") /\
  (ns <> "" ->
   fst (namespaceStats (Some ns) env w) = fst (namespaceCount ns env w) /\
   (forall n, snd (namespaceCount ns env w) = Normal (JNum n) <->
              snd (namespaceStats (Some ns) env w) = Normal (VectorCount n)) /\
   (forall e, snd (namespaceCount ns env w) = Normal (JError e) <->
              snd (namespaceStats (Some ns) env w) = Normal (StatsError e)) /\
   (forall e, snd (namespaceCount ns env w) = Throw e <->
              snd (namespaceStats (Some ns) env w) = Throw e)).
Proof.
  split; [reflexivity|]. split; [reflexivity|]. intros Hns.
  unfold namespaceStats, namespaceCount. apply String.eqb_neq in Hns. rewrite Hns.
  cbv [bind try_catch run ret].
  destruct (getSession env w) as [w1 [[]|e]].
  - destruct (run_fails env (QNamespaceCount ns)); simpl;
      (split; [reflexivity|]); repeat split; congruence.
  - simpl. split; [reflexivity|]. repeat split; congruence.
Qed.

Lemma namespaceStats_as_namespaceCount_witness :
  fst (namespaceStats (Some "acme") env0 (world_of db_two_docs)) =
  fst (namespaceCount "acme" env0 (world_of db_two_docs)).
Proof.
  apply (proj1 (proj2 (proj2 (namespaceStats_as_namespaceCount env0 (world_of db_two_docs) "acme"))
                  ltac:(discriminate))).
Defined.

(** X8.  With the adapter initialized and the two statements succeeding,
    [namespaceCount ns] returns the number of nodes labelled [Chunk] and
    [ns], and [hasNamespace ns] returns whether that number is positive. *)
Theorem hasNamespace_iff_count_positive (env : Env) (w : World) (ns : string) :
  driver w = true -> run_fails env (QHasNamespace ns) = None ->
  run_fails env (QNamespaceCount ns) = None ->
  snd (namespaceCount ns env w) = Normal (JNum (count_ns (db w) ns)) /\
  snd (hasNamespace ns env w) = Normal (JBool (Nat.ltb 0 (count_ns (db w) ns))).
Proof.
  intros H H1 H2. unfold namespaceCount, hasNamespace.
  rewrite !bind_getSession_inited by exact H.
  cbv [try_catch bind run ret]. rewrite H1, H2. split; reflexivity.
Qed.

Lemma hasNamespace_iff_count_positive_witness :
  snd (hasNamespace "acme" env0 (world_of db_two_docs)) = Normal (JBool true).
Proof.
  apply (proj2 (hasNamespace_iff_count_positive env0 (world_of db_two_docs) "acme"
                  eq_refl eq_refl eq_refl)).
Defined.

(** X9.  With the adapter initialized, [reset] either succeeds, returning
    [{reset: true}] and leaving no node and no relationship, after which
    [namespaceCount] returns 0 for every namespace, or its statement
    fails and it returns [{error}] with the graph unchanged. *)
Theorem reset_clears_graph (env : Env) (w : World) :
  driver w = true ->
  (run_fails env QDeleteAll = None ->
   snd (reset env w) = Normal ResetTrue /\
   nodes (db (fst (reset env w))) = [] /\ rels (db (fst (reset env w))) = [] /\
   forall ns, run_fails env (QNamespaceCount ns) = None ->
     snd (namespaceCount ns env (fst (reset env w))) = Normal (JNum 0)) /\
  (forall e, run_fails env QDeleteAll = Some e ->
   snd (reset env w) = Normal (ResetError e) /\ db (fst (reset env w)) = db w).
Proof.
  intros H. unfold reset. rewrite bind_getSession_inited by exact H.
  cbv [try_catch bind run ret]. split.
  - intros Hf. rewrite Hf. simpl. split; [reflexivity|]. split; [reflexivity|].
    split; [reflexivity|]. intros ns Hc. unfold namespaceCount.
    rewrite bind_getSession_inited by exact H. cbv [try_catch bind run ret]. rewrite Hc.
    reflexivity.
  - intros e Hf. rewrite Hf. split; reflexivity.
Qed.

Lemma reset_clears_graph_witness :
  snd (reset env0 (world_of db_two_docs)) = Normal ResetTrue.
Proof.
  apply (proj1 (proj1 (reset_clears_graph env0 (world_of db_two_docs) eq_refl) eq_refl)).
Defined.

(** X10.  While [this.driver] is unset and [VECTOR_DB] is not ["neo4j"],
    every operation throws ["Neo4j::Invalid ENV settings"] and leaves the
    adapter exactly as it was (nothing recorded, driver still unset), so
    each later call tries again. *)
Theorem invalid_env_every_operation_throws (env : Env) (w : World) (ns d : string)
  (dd : DocumentData) (path : option string) (skipCache : bool) (a : SearchArgs) :
  driver w = false -> env_VECTOR_DB env <> "neo4j" ->
  hasNamespace ns env w = (w, Throw "Neo4j::Invalid ENV settings") /\
  namespaceCount ns env w = (w, Throw "Neo4j::Invalid ENV settings") /\
  addDocumentToNamespace ns dd path skipCache env w = (w, Throw "Neo4j::Invalid ENV settings") /\
  deleteDocumentFromNamespace ns d env w = (w, Throw "Neo4j::Invalid ENV settings") /\
  performSimilaritySearch a env w = (w, Throw "Neo4j::Invalid ENV settings") /\
  heartbeat env w = (w, Throw "Neo4j::Invalid ENV settings") /\
  reset env w = (w, Throw "Neo4j::Invalid ENV settings").
Proof.
  intros H E.
  assert (G : forall A (k : unit -> M A),
             bind getSession k env w = (w, Throw "Neo4j::Invalid ENV settings")).
  { intros A k. unfold bind, getSession, getSession_fuel. rewrite H.
    unfold initialize. cbv [bind ask]. apply String.eqb_neq in E. rewrite E. reflexivity. }
  unfold hasNamespace, namespaceCount, addDocumentToNamespace, deleteDocumentFromNamespace,
    performSimilaritySearch, performEnhancedSimilaritySearch, heartbeat, reset.
  rewrite !G. repeat split.
Qed.

Lemma invalid_env_every_operation_throws_witness :
  hasNamespace "acme" (mkEnv "lancedb" None no_fail dot (fun _ _ => []) (embedTextInput env0)
                         (embedChunks env0) (splitText env0) (fun _ => None))
    (world_uninit db_empty) = (world_uninit db_empty, Throw "Neo4j::Invalid ENV settings").
Proof.
  apply (proj1 (invalid_env_every_operation_throws
                  (mkEnv "lancedb" None no_fail dot (fun _ _ => []) (embedTextInput env0)
                     (embedChunks env0) (splitText env0) (fun _ => None))
                  (world_uninit db_empty) "acme" "d1" dd_hello None false
                  (args "acme" (1#4) 4 []) eq_refl ltac:(discriminate))).
Defined.

(** X11.  When the connectivity check fails on first use, the call throws
    the connection error (an operation such as [hasNamespace] rejects
    instead of returning [{error}]), but [this.driver] stays set: later
    calls no longer initialize nor check connectivity.  After
    [disconnect], the next call initializes again and checks connectivity
    again. *)
Theorem connectivity_failure_keeps_driver (env : Env) (w : World) (e ns : string) :
  driver w = false -> env_VECTOR_DB env = "neo4j" -> connectivity env = Some e ->
  getSession env w = (mkWorld (db w) true (trace w ++ [EVerifyConnectivity]) (uuid w), Throw e) /\
  snd (hasNamespace ns env w) = Throw e /\
  getSession env (mkWorld (db w) true (trace w ++ [EVerifyConnectivity]) (uuid w)) =
    (mkWorld (db w) true (trace w ++ [EVerifyConnectivity]) (uuid w), Normal tt) /\
  getSession env (fst (disconnect env (mkWorld (db w) true (trace w ++ [EVerifyConnectivity]) (uuid w)))) =
    (mkWorld (db w) true (trace w ++ [EVerifyConnectivity; EVerifyConnectivity]) (uuid w), Throw e).
Proof.
  intros H E C.
  assert (G : forall w', driver w' = false -> db w' = db w -> uuid w' = uuid w ->
             getSession env w' =
             (mkWorld (db w) true (trace w' ++ [EVerifyConnectivity]) (uuid w), Throw e)).
  { intros w' H' Dw Uw. unfold getSession, getSession_fuel. rewrite H'.
    unfold initialize, verifyConnectivity. cbv [bind ask set_driver try_catch emit throw].
    rewrite E. simpl. rewrite C. rewrite Dw, Uw. reflexivity. }
  split; [exact (G w H eq_refl eq_refl)|]. split.
  - unfold hasNamespace, bind. rewrite (G w H eq_refl eq_refl). reflexivity.
  - split; [reflexivity|]. unfold disconnect. cbn [fst driver db trace uuid].
    rewrite (G (mkWorld (db w) false (trace w ++ [EVerifyConnectivity]) (uuid w))
               eq_refl eq_refl eq_refl).
    cbn [trace]. rewrite <- app_assoc. reflexivity.
Qed.

Lemma connectivity_failure_keeps_driver_witness :
  snd (hasNamespace "acme"
         (mkEnv "neo4j" (Some "ServiceUnavailable") no_fail dot (fun _ _ => [])
            (embedTextInput env0) (embedChunks env0) (splitText env0) (fun _ => None))
         (world_uninit db_empty)) = Throw "ServiceUnavailable".
Proof.
  apply (proj1 (proj2 (connectivity_failure_keeps_driver
                  (mkEnv "neo4j" (Some "ServiceUnavailable") no_fail dot (fun _ _ => [])
                     (embedTextInput env0) (embedChunks env0) (splitText env0) (fun _ => None))
                  (world_uninit db_empty) "ServiceUnavailable" "acme" eq_refl eq_refl eq_refl))).
Defined.

(** X12.  With the adapter initialized and no statement failing, a
    maintenance pass leaves the chunk nodes as they are, replaces every
    relationship by the KNN edges ([topK] 5) of those nodes, leaves the
    graph projected, and creates the vector index with the dimension of
    the sampled embedding when there was none and that dimension is
    positive; an existing index is kept. *)
Theorem maintenance_rebuilds_edges (env : Env) (w : World) :
  driver w = true -> (forall r, run_fails env r = None) ->
  db (fst (updateGraphAndRelationships getSession env w)) =
  mkDB (nodes (db w)) (knn env (nodes (db w)) 5) true
       (match vectorIndex (db w) with
        | Some k => Some k
        | None => match sem_embedding_dim env (db w) with
                  | Normal (_, Some (S k)) => Some (S k)
                  | _ => None
                  end
        end)
       (next_nid (db w)).
Proof.
  intros H Hf. rewrite update_unfold by exact H.
  destruct w as [[ns rs gp vi nn] dr tr u]. simpl in H |- *. subst dr.
  unfold update_body, createOrUpdateVectorIndex, getEmbeddingDimensions, projectGraph,
    createKNNRelationships, sem_embedding_dim.
  cbv [bind try_catch run ret].
  repeat (first [rewrite getSession_inited by reflexivity | rewrite Hf]; cbn -[getSession find]).
  destruct (find _ ns) as [n|]; [destruct (embedding n) as [v|]|]; cbn -[getSession];
  try (destruct (List.length v)); cbn -[getSession];
  destruct vi as [k'|]; cbn -[getSession];
  repeat (first [rewrite getSession_inited by reflexivity | rewrite Hf]; cbn -[getSession]);
  try (destruct (Nat.eqb k' _); cbn -[getSession]);
  repeat (first [rewrite getSession_inited by reflexivity | rewrite Hf]; cbn -[getSession]);
  destruct gp; cbn -[getSession];
  repeat (first [rewrite getSession_inited by reflexivity | rewrite Hf]; cbn -[getSession]);
  reflexivity.
Qed.

Lemma maintenance_rebuilds_edges_witness :
  db (fst (updateGraphAndRelationships getSession env0 (world_of db_two_docs))) =
  mkDB (nodes db_two_docs) [] true (Some 2%nat) 3%nat.
Proof.
  exact (maintenance_rebuilds_edges env0 (world_of db_two_docs) eq_refl (fun _ => eq_refl)).
Defined.

Lemma Forall_filter_true {A} (f : A -> bool) (l : list A) :
  Forall (fun x => f x = true) (filter f l).
Proof. apply Forall_forall. intros x Hx. apply filter_In in Hx. tauto. Qed.

Ltac split_fails env :=
  repeat (match goal with
          | |- context [run_fails env ?r] => destruct (run_fails env r) eqn:?
          end; cbn in *).

(** X13.  Once the adapter is initialized, [createGraphProjection] never
    throws and changes neither the chunk nodes, nor the relationships,
    nor the vector index; when no statement fails, the graph is
    projected afterwards, whether or not it was before. *)
Theorem createGraphProjection_keeps_data (env : Env) (w : World) :
  driver w = true ->
  let w' := fst (createGraphProjection env w) in
  snd (createGraphProjection env w) = Normal tt /\
  nodes (db w') = nodes (db w) /\ rels (db w') = rels (db w) /\
  vectorIndex (db w') = vectorIndex (db w) /\
  ((forall r, run_fails env r = None) -> graphProjected (db w') = true).
Proof.
  intros H. unfold createGraphProjection. rewrite bind_getSession_inited by exact H.
  destruct w as [[ns rs gp vi nn] dr tr u]. simpl in H. subst dr.
  unfold projectGraph, sem_graph_exists, sem_graph_drop, sem_graph_project.
  cbv [try_catch bind run ret]. cbn.
  destruct gp; split_fails env; repeat split; intros; try reflexivity;
  match goal with
  | Hf : forall r, run_fails env r = None, E : run_fails env ?q = Some _ |- _ =>
      rewrite Hf in E; discriminate
  end.
Qed.

Lemma createGraphProjection_keeps_data_witness :
  graphProjected (db (fst (createGraphProjection env0 (world_of db_two_docs)))) = true.
Proof.
  exact (proj2 (proj2 (proj2 (proj2
    (createGraphProjection_keeps_data env0 (world_of db_two_docs) eq_refl))))
    (fun _ => eq_refl)).
Defined.

(** X14.  Once the adapter is initialized, [updateGraphProjectionAndKNN]
    never throws, keeps the chunk nodes, and never removes a relationship:
    it only appends KNN edges of similarity at least 0.5.  When no
    statement fails, the appended edges are exactly the KNN edges
    ([topK] 5) of the nodes with similarity at least 0.5. *)
Theorem updateGraphProjectionAndKNN_only_appends (env : Env) (w : World) :
  driver w = true ->
  let w' := fst (updateGraphProjectionAndKNN env w) in
  snd (updateGraphProjectionAndKNN env w) = Normal tt /\
  nodes (db w') = nodes (db w) /\
  (exists added, rels (db w') = rels (db w) ++ added /\
     Forall (fun r => Qle_bool (1 # 2) (similarity r) = true) added) /\
  ((forall r, run_fails env r = None) ->
   rels (db w') = rels (db w) ++ filter (fun r => Qle_bool (1 # 2) (similarity r))
                                        (knn env (nodes (db w)) 5)).
Proof.
  intros H. unfold updateGraphProjectionAndKNN. rewrite bind_getSession_inited by exact H.
  destruct w as [[ns rs gp vi nn] dr tr u]. simpl in H. subst dr.
  unfold projectGraph, sem_graph_exists, sem_graph_drop, sem_graph_project,
    sem_knn_write_cutoff.
  cbv [try_catch bind run ret]. cbn.
  destruct gp; split_fails env; repeat split;
  try (exists []; rewrite app_nil_r; split; [reflexivity | constructor]);
  try (eexists; split; [reflexivity | apply Forall_filter_true]);
  intros; try reflexivity;
  match goal with
  | Hf : forall r, run_fails env r = None, E : run_fails env ?q = Some _ |- _ =>
      rewrite Hf in E; discriminate
  end.
Qed.

Lemma updateGraphProjectionAndKNN_only_appends_witness :
  rels (db (fst (updateGraphProjectionAndKNN env0 (world_of db_two_docs)))) = [].
Proof.
  exact (proj2 (proj2 (proj2
    (updateGraphProjectionAndKNN_only_appends env0 (world_of db_two_docs) eq_refl)))
    (fun _ => eq_refl)).
Defined.

Lemma appends_write_cached_runs (P : Event -> Prop) (ns d : string)
  (chunks : list (Meta * list Q)) :
  (forall r, P (ERun r)) -> appends_only P (write_cached ns d chunks).
Proof.
  intros HP. induction chunks as [|[m values] cs IH]; simpl; [apply appends_ret|].
  apply appends_bind; [apply appends_uuidv4|intros cid].
  apply appends_bind; [apply appends_run; apply HP|intros _]. exact IH.
Qed.

(** X15.  With the adapter initialized and a non-empty [pageContent],
    [addDocumentToNamespace] reads the vector cache only when [skipCache]
    is true.  With [skipCache] false the document is always split and
    sent to the embedder first, whatever the cache holds; with
    [skipCache] true and a cache hit, the embedder is never called. *)
Theorem add_cache_read_only_with_skipCache (env : Env) (w : World) (ns : string)
  (dd : DocumentData) (path : option string) (skipCache : bool) :
  driver w = true -> dd_pageContent dd <> "" ->
  (skipCache = false ->
   exists rest, trace (fst (addDocumentToNamespace ns dd path skipCache env w)) =
                trace w ++ EEmbedChunks (splitText env (dd_pageContent dd)) :: rest) /\
  (forall chunks, skipCache = true -> cachedVectorInformation env path = Some chunks ->
   exists nw, trace (fst (addDocumentToNamespace ns dd path skipCache env w)) = trace w ++ nw /\
              Forall not_embed_chunks nw).
Proof.
  intros H Hpc.
  assert (E : String.eqb (dd_pageContent dd) "" = false) by (apply String.eqb_neq; exact Hpc).
  unfold addDocumentToNamespace. cbv [bind try_catch ask ret].
  rewrite getSession_inited by exact H. rewrite E.
  split.
  - intros ->. cbv [emit lift throw].
    set (w0 := mkWorld (db w) (driver w)
                 (trace w ++ [EEmbedChunks (splitText env (dd_pageContent dd))]) (uuid w)).
    destruct (embedChunks env (splitText env (dd_pageContent dd))) as [[[|v vs]|]|e];
      try (exists []; reflexivity).
    destruct (appends_write_chunks ns (dd_docId dd) (dd_metadata dd)
                (splitText env (dd_pageContent dd)) (v :: vs) 0 env w0 H) as [D1 [n1 [T1 _]]].
    destruct (write_chunks ns (dd_docId dd) (dd_metadata dd)
                (splitText env (dd_pageContent dd)) 0 (v :: vs) env w0) as [w1 [[]|e]];
      simpl in D1, T1.
    + set (w1' := mkWorld (db w1) (driver w1) (trace w1 ++ [EStoreVectorResult]) (uuid w1)).
      destruct (update_shape env w1' D1) as [_ [_ [nw [T _]]]].
      destruct (updateGraphAndRelationships getSession env w1') as [w2 [[]|e]];
        simpl in T |- *;
        (exists (n1 ++ EStoreVectorResult :: EPipeline :: nw);
         rewrite T; unfold w1'; simpl; rewrite T1; unfold w0; simpl;
         rewrite <- !app_assoc; reflexivity).
    + simpl. exists n1. rewrite T1. unfold w0. simpl. rewrite <- app_assoc. reflexivity.
  - intros chunks -> C. rewrite C.
    assert (HW : appends_only not_embed_chunks (write_cached ns (dd_docId dd) chunks))
      by (apply appends_write_cached_runs; intros r ts; discriminate).
    assert (HU : appends_only not_embed_chunks (updateGraphAndRelationships getSession)).
    { apply appends_update; [intros ts; discriminate|].
      intros e [G|[->|[d ->]]] ts; [|discriminate|discriminate].
      unfold graph_request in G. intros ->. decompose [or] G; discriminate. }
    destruct (HW env w H) as [D1 [n1 [T1 F1]]].
    destruct (write_cached ns (dd_docId dd) chunks env w) as [w1 [[]|e]]; simpl in D1, T1.
    + destruct (HU env w1 D1) as [_ [n2 [T2 F2]]].
      destruct (updateGraphAndRelationships getSession env w1) as [w2 [[]|e]]; simpl in T2 |- *;
        (exists (n1 ++ n2); rewrite T2, T1, <- app_assoc; split;
         [reflexivity | apply Forall_app; auto]).
    + exists n1. auto.
Qed.

Lemma add_cache_read_only_with_skipCache_witness :
  exists rest, trace (fst (addDocumentToNamespace "acme" dd_hello None false env0
                             (world_of db_empty))) = EEmbedChunks ["hello"] :: rest.
Proof.
  exact (proj1 (add_cache_read_only_with_skipCache env0 (world_of db_empty) "acme" dd_hello
                  None false eq_refl ltac:(discriminate)) eq_refl).
Defined.

Lemma existsb_false_forall {A} (f : A -> bool) (l : list A) :
  existsb f l = false -> Forall (fun x => f x = false) l.
Proof.
  induction l as [|x l IH]; simpl; [constructor|].
  intros E. apply orb_false_iff in E as [E1 E2]. constructor; auto.
Qed.

Lemma process_records_shape (ns : string) (t : Q) (ff : list string) (rows : list Row)
  (r : SearchResult) :
  process_records ns t ff rows = Normal r ->
  List.length (sources r) = List.length (contextTexts r) /\
  List.length (scores r) = List.length (contextTexts r) /\
  List.length (relatedContextsOut r) = List.length (contextTexts r) /\
  Forall (fun c => c <> None) (contextTexts r) /\
  (contextTexts r = [] -> message r = Some (NoResultsAbove ns t)) /\
  (contextTexts r <> [] -> message r = None).
Proof.
  unfold process_records. destruct existsb eqn:X; intros P; inversion P; subst; clear P.
  simpl in *. rewrite !length_map. repeat split.
  - apply existsb_false_forall in X. eapply Forall_impl; [|exact X].
    intros [c|] E; [discriminate|discriminate].
  - destruct (filter (keep_record ff) rows); [reflexivity|discriminate].
  - destruct (filter (keep_record ff) rows); [|reflexivity]. intros C. now contradiction C.
Qed.

(** X16.  A search that returns a result object returns four arrays
    ([contextTexts], [sources], [scores], [relatedContexts]) of the same
    length, no context text in it is null, and its [message] is set
    exactly when nothing is returned, naming the namespace and the
    threshold. *)
Theorem search_result_aligned (env : Env) (w : World) (a : SearchArgs) (r : SearchResult) :
  snd (performSimilaritySearch a env w) = Normal (SResult r) ->
  List.length (sources r) = List.length (contextTexts r) /\
  List.length (scores r) = List.length (contextTexts r) /\
  List.length (relatedContextsOut r) = List.length (contextTexts r) /\
  Forall (fun c => c <> None) (contextTexts r) /\
  (contextTexts r = [] ->
   message r = Some (NoResultsAbove (namespace a) (similarityThreshold a))) /\
  (contextTexts r <> [] -> message r = None).
Proof.
  intros H. apply performEnhancedSimilaritySearch_result in H as (w1 & qv & _ & _ & P).
  exact (process_records_shape _ _ _ _ r P).
Qed.

Lemma search_result_aligned_witness :
  let r := mkSearchResult [Some "a"] [[("docId", "d1"); ("text", "a")]]
             [Some (352500 # 625000)] [[Some "b"; Some "c"]] None in
  List.length (sources r) = List.length (contextTexts r) /\
  List.length (scores r) = List.length (contextTexts r) /\
  List.length (relatedContextsOut r) = List.length (contextTexts r) /\
  Forall (fun c => c <> None) (contextTexts r) /\
  (contextTexts r = [] -> message r = Some (NoResultsAbove "acme" (3#5))) /\
  (contextTexts r <> [] -> message r = None).
Proof.
  intros r. apply (search_result_aligned env0 (world_of db_decay) (args "acme" (3#5) 4 []) r).
  vm_compute. reflexivity.
Defined.

Lemma insert_by_In {A} (before : A -> A -> bool) (x y : A) (l : list A) :
  In y (insert_by before x l) <-> x = y \/ In y l.
Proof.
  induction l as [|z l IH]; simpl; [tauto|].
  destruct (before x z); simpl; rewrite ?IH; tauto.
Qed.

Lemma sort_by_In {A} (before : A -> A -> bool) (y : A) (l : list A) :
  In y (sort_by before l) <-> In y l.
Proof.
  induction l as [|x l IH]; simpl; [tauto|]. rewrite insert_by_In, IH. tauto.
Qed.

Lemma In_firstn {A} (n : nat) (x : A) (l : list A) : In x (firstn n l) -> In x l.
Proof.
  intros Hx. rewrite <- (firstn_skipn n l). apply in_or_app. now left.
Qed.

Lemma combine_map_same {A B C} (f : A -> B) (g : A -> C) (l : list A) :
  combine (map f l) (map g l) = map (fun x => (f x, g x)) l.
Proof. induction l as [|x l IH]; simpl; [reflexivity|]. now rewrite IH. Qed.

(** The rows of the similarity query come from chunk nodes of the
    namespace whose embedding is similar enough to the query vector. *)
Lemma search_query_from_nodes (env : Env) (d : DB) (ns : string) (qv : list Q) (t : Q)
  (n k : nat) (x : Row) :
  In x (search_query env d ns qv t n k) ->
  exists nd e, In nd (nodes d) /\ in_ns ns nd = true /\ embedding nd = Some e /\
    Qle_bool t (cosine env e qv) = true /\
    contextText x = pageContent nd /\ sourceDocument x = metadata nd.
Proof.
  unfold search_query. intros Hx.
  apply In_firstn, sort_by_In, in_map_iff in Hx as (p & <- & Hp).
  unfold stage1 in Hp. apply In_firstn, sort_by_In in Hp.
  unfold direct_matches in Hp. apply filter_In in Hp as [Hp T].
  apply in_flat_map in Hp as (nd & Hn & Hp).
  destruct (in_ns ns nd) eqn:N; [|contradiction].
  destruct (embedding nd) as [e|] eqn:E; [|contradiction].
  destruct Hp as [<-|[]]. exists nd, e. simpl in T. auto 7.
Qed.

(** X17.  Once the adapter is initialized, every (context text, source)
    pair a search returns is the [pageContent] and the metadata of one
    stored [Chunk] node of the searched namespace whose embedding has a
    cosine similarity of at least the threshold to the embedded query:
    other namespaces, chunks without an embedding, and chunks reached
    only through SIMILAR_TO edges are never returned. *)
Theorem search_returns_namespace_matches (env : Env) (w : World) (a : SearchArgs)
  (r : SearchResult) :
  driver w = true ->
  snd (performSimilaritySearch a env w) = Normal (SResult r) ->
  exists qv, embedTextInput env (input a) = Normal qv /\
  forall c s, In (c, s) (combine (contextTexts r) (sources r)) ->
  exists nd e, In nd (nodes (db w)) /\ in_ns (namespace a) nd = true /\
    embedding nd = Some e /\ Qle_bool (similarityThreshold a) (cosine env e qv) = true /\
    pageContent nd = c /\ metadata nd = s.
Proof.
  intros H R. apply performEnhancedSimilaritySearch_result in R as (w1 & qv & G & Qv & P).
  rewrite getSession_inited in G by exact H. inversion G; subst w1; clear G.
  exists qv. split; [exact Qv|].
  apply process_records_inv in P as (Hc & Hs & _). rewrite Hc, Hs, combine_map_same.
  intros c s Hin. apply in_map_iff in Hin as (x & Ex & Hx).
  apply filter_In in Hx as [Hx _]. inversion Ex; subst c s.
  destruct (search_query_from_nodes _ _ _ _ _ _ _ x Hx) as (nd & e & ? & ? & ? & ? & C & S).
  exists nd, e. rewrite C, S. auto 7.
Qed.

Lemma search_returns_namespace_matches_witness :
  let r := mkSearchResult [Some "a"] [[("docId", "d1"); ("text", "a")]]
             [Some (352500 # 625000)] [[Some "b"; Some "c"]] None in
  exists qv, embedTextInput env0 "query" = Normal qv /\
  forall c s, In (c, s) (combine (contextTexts r) (sources r)) ->
  exists nd e, In nd (nodes db_decay) /\ in_ns "acme" nd = true /\
    embedding nd = Some e /\ Qle_bool (3#5) (cosine env0 e qv) = true /\
    pageContent nd = c /\ metadata nd = s.
Proof.
  intros r.
  apply (search_returns_namespace_matches env0 (world_of db_decay) (args "acme" (3#5) 4 []) r
           eq_refl).
  vm_compute. reflexivity.
Defined.

(** ** C4: excluded documents are never excluded *)

Lemma keeps_no_docid_refl (d : DB) : keeps_no_docid d d.
Proof. unfold keeps_no_docid. auto. Qed.

Lemma keeps_no_docid_trans (d1 d2 d3 : DB) :
  keeps_no_docid d1 d2 -> keeps_no_docid d2 d3 -> keeps_no_docid d1 d3.
Proof. unfold keeps_no_docid. auto. Qed.

Ltac nd_tac :=
  repeat match goal with
  | |- stable _ (bind _ _) => apply (stable_bind _ keeps_no_docid_trans); [|intros ?]
  | |- stable _ (try_catch _ _) => apply (stable_try_catch _ keeps_no_docid_trans); [|intros ?]
  | |- stable _ (ret _) => apply (stable_ret _ keeps_no_docid_refl)
  | |- stable _ (throw _) => apply (stable_throw _ keeps_no_docid_refl)
  | |- stable _ (lift _) => apply (stable_lift _ keeps_no_docid_refl)
  | |- stable _ (emit _) => apply (stable_emit _ keeps_no_docid_refl)
  | |- stable _ uuidv4 => apply (stable_uuidv4 _ keeps_no_docid_refl)
  | |- stable _ (if ?b then _ else _) => destruct b
  | |- stable _ (match ?x with _ => _ end) => destruct x
  end.

Lemma keeps_no_docid_same_nodes (d d' : DB) : nodes d' = nodes d -> keeps_no_docid d d'.
Proof. intros E H n Hn. apply H. rewrite <- E. exact Hn. Qed.

Lemma keeps_no_docid_getSession : stable keeps_no_docid getSession.
Proof.
  apply (stable_getSession keeps_no_docid keeps_no_docid_refl keeps_no_docid_trans);
    unfold sem_respects; respects_tac; apply keeps_no_docid_same_nodes; reflexivity.
Qed.

Lemma keeps_no_docid_update : stable keeps_no_docid (updateGraphAndRelationships getSession).
Proof.
  apply (stable_update_getSession keeps_no_docid keeps_no_docid_refl keeps_no_docid_trans);
    unfold sem_respects; respects_tac; apply keeps_no_docid_same_nodes; reflexivity.
Qed.

Lemma meta_get_set_other (k k' v : string) (m : Meta) :
  String.eqb k k' = false -> meta_get k (meta_set k' v m) = meta_get k m.
Proof.
  intros K. induction m as [|[k1 v1] m IH]; simpl.
  - rewrite K. reflexivity.
  - destruct (String.eqb k' k1) eqn:E1; simpl.
    + apply String.eqb_eq in E1. subst k1. rewrite K. reflexivity.
    + destruct (String.eqb k k1); [reflexivity|exact IH].
Qed.

Lemma meta_get_remove_other (k k' : string) (m : Meta) :
  String.eqb k k' = false -> meta_get k (meta_remove k' m) = meta_get k m.
Proof.
  intros K. unfold meta_remove. induction m as [|[k1 v1] m IH]; simpl; [reflexivity|].
  destruct (String.eqb k' k1) eqn:E1; simpl.
  - apply String.eqb_eq in E1. subst k1. rewrite K. exact IH.
  - destruct (String.eqb k k1); [reflexivity|exact IH].
Qed.

Lemma create_chunk_keeps_no_docid (ns d : string) (cid : nat) (pc : option string)
  (m : Meta) (e : list Q) :
  meta_get "docId" m = None -> sem_respects keeps_no_docid (sem_create_chunk ns d cid pc m e).
Proof.
  intros Hm env db db' a E. unfold sem_create_chunk in E. inversion E; subst. clear E.
  intros H n Hn. simpl in Hn. apply in_app_or in Hn as [Hn|[<-|[]]]; [exact (H n Hn)|exact Hm].
Qed.

Lemma keeps_no_docid_write_chunks (ns d : string) (m : Meta) (tcs : list string)
  (vs : list (list Q)) :
  meta_get "docId" m = None -> forall i, stable keeps_no_docid (write_chunks ns d m tcs i vs).
Proof.
  intros Hm. induction vs as [|v vs IH]; intros i; simpl; nd_tac; auto.
  apply (stable_run _ keeps_no_docid_refl). apply create_chunk_keeps_no_docid.
  destruct (nth_error tcs i); [rewrite meta_get_set_other|rewrite meta_get_remove_other];
    auto.
Qed.

Lemma keeps_no_docid_write_cached (ns d : string) (chunks : list (Meta * list Q)) :
  Forall (fun c => meta_get "docId" (fst c) = None) chunks ->
  stable keeps_no_docid (write_cached ns d chunks).
Proof.
  induction chunks as [|[m v] cs IH]; intros F; simpl; nd_tac.
  inversion F; subst.
  apply (stable_run _ keeps_no_docid_refl). apply create_chunk_keeps_no_docid. assumption.
  apply IH. inversion F; assumption.
Qed.

Lemma add_keeps_no_docid (env : Env) (w : World) (ns : string) (dd : DocumentData)
  (path : option string) (skipCache : bool) :
  meta_get "docId" (dd_metadata dd) = None ->
  (forall chunks, cachedVectorInformation env path = Some chunks ->
     Forall (fun c => meta_get "docId" (fst c) = None) chunks) ->
  keeps_no_docid (db w) (db (fst (addDocumentToNamespace ns dd path skipCache env w))).
Proof.
  intros Hm Hc. unfold addDocumentToNamespace. cbv [bind try_catch ask ret].
  pose proof (keeps_no_docid_getSession env w) as G.
  destruct (getSession env w) as [w0 [[]|e]]; simpl in G |- *; [|exact G].
  destruct (String.eqb (dd_pageContent dd) ""); simpl; [exact G|].
  destruct (if skipCache then cachedVectorInformation env path else None) as [chunks|] eqn:C.
  - assert (F : Forall (fun c => meta_get "docId" (fst c) = None) chunks)
      by (destruct skipCache; [exact (Hc _ C)|discriminate]).
    pose proof (keeps_no_docid_write_cached ns (dd_docId dd) chunks F env w0) as W.
    destruct (write_cached ns (dd_docId dd) chunks env w0) as [w1 [[]|e]];
      simpl in W |- *; [|exact (keeps_no_docid_trans _ _ _ G W)].
    pose proof (keeps_no_docid_update env w1) as U.
    destruct (updateGraphAndRelationships getSession env w1) as [w2 [[]|e]]; simpl in U |- *;
      exact (keeps_no_docid_trans _ _ _ G (keeps_no_docid_trans _ _ _ W U)).
  - cbv [emit lift throw].
    destruct (embedChunks env (splitText env (dd_pageContent dd))) as [[[|v vs]|]|e];
      try exact G.
    set (w0' := mkWorld (db w0) (driver w0)
                  (trace w0 ++ [EEmbedChunks (splitText env (dd_pageContent dd))]) (uuid w0)).
    pose proof (keeps_no_docid_write_chunks ns (dd_docId dd) (dd_metadata dd)
                  (splitText env (dd_pageContent dd)) (v :: vs) Hm 0 env w0') as W.
    destruct (write_chunks ns (dd_docId dd) (dd_metadata dd)
                (splitText env (dd_pageContent dd)) 0 (v :: vs) env w0') as [w1 [[]|e]];
      simpl in W |- *; [|exact (keeps_no_docid_trans _ _ _ G W)].
    set (w1' := mkWorld (db w1) (driver w1) (trace w1 ++ [EStoreVectorResult]) (uuid w1)).
    pose proof (keeps_no_docid_update env w1') as U.
    destruct (updateGraphAndRelationships getSession env w1') as [w2 [[]|e]]; simpl in U |- *;
      exact (keeps_no_docid_trans _ _ _ G (keeps_no_docid_trans _ _ _ W U)).
Qed.

Lemma keeps_no_docid_delete (ns d : string) :
  stable keeps_no_docid (deleteDocumentFromNamespace ns d).
Proof.
  unfold deleteDocumentFromNamespace.
  apply (stable_bind _ keeps_no_docid_trans); [apply keeps_no_docid_getSession|intros _].
  nd_tac.
  - apply (stable_run _ keeps_no_docid_refl).
    intros env db db' a E. unfold sem_delete_doc in E. inversion E; subst. clear E.
    intros H n Hn. simpl in Hn. apply filter_In in Hn as [Hn _]. exact (H n Hn).
  - apply keeps_no_docid_update.
Qed.

Lemma keeps_no_docid_reset : stable keeps_no_docid reset.
Proof.
  unfold reset.
  apply (stable_bind _ keeps_no_docid_trans); [apply keeps_no_docid_getSession|intros _].
  nd_tac. apply (stable_run _ keeps_no_docid_refl).
  intros env db db' a E. unfold sem_delete_all in E. inversion E; subst.
  intros _ n [].
Qed.

Lemma filter_all_true {A} (f : A -> bool) (l : list A) :
  (forall x, In x l -> f x = true) -> filter f l = l.
Proof.
  induction l as [|x l IH]; simpl; intros H; [reflexivity|].
  rewrite (H x (or_introl eq_refl)). f_equal. apply IH. intros y Hy. apply H. now right.
Qed.

Lemma keep_record_no_docid (ff : list string) (row : Row) :
  meta_get "docId" (sourceDocument row) = None -> keep_record ff row = true.
Proof.
  intros H. unfold keep_record. rewrite H. destruct ff as [|f ff]; [reflexivity|].
  simpl. induction ff as [|g ff IH]; simpl; [reflexivity|exact IH].
Qed.

Lemma process_records_no_docid (ns : string) (t : Q) (ff : list string) (rows : list Row) :
  (forall x, In x rows -> meta_get "docId" (sourceDocument x) = None) ->
  process_records ns t ff rows = process_records ns t [] rows.
Proof.
  intros H. unfold process_records.
  rewrite (filter_all_true (keep_record ff)) by (intros x Hx; apply keep_record_no_docid, H, Hx).
  rewrite (filter_all_true (keep_record [])) by reflexivity. reflexivity.
Qed.

(** Once initialized, a search on a graph without a metadata [docId]
    behaves, in result, graph and trace, as the same search without
    exclusions. *)
Lemma search_ignores_exclusion (env : Env) (w : World) (a : SearchArgs) :
  driver w = true -> no_docid_meta (db w) ->
  performSimilaritySearch a env w =
  performSimilaritySearch (mkSearchArgs (namespace a) (input a) (similarityThreshold a)
                                        (topN a) []) env w.
Proof.
  intros Hd Hn. destruct a as [ns inp t n ff]. simpl.
  unfold performSimilaritySearch, performEnhancedSimilaritySearch.
  cbv [bind try_catch ask emit lift run ret sem_search].
  rewrite getSession_inited by exact Hd. cbn [namespace input similarityThreshold topN
    filterFilters fst snd db].
  destruct (embedTextInput env inp) as [qv|e]; [|reflexivity].
  destruct (run_fails env (QSearch ns qv t n 2)); [reflexivity|].
  rewrite (process_records_no_docid ns t ff); [reflexivity|].
  intros x Hx. destruct (search_query_from_nodes _ _ _ _ _ _ _ x Hx)
    as (nd & e & Hin & _ & _ & _ & _ & S). rewrite S. exact (Hn nd Hin).
Qed.

(** C4 (code_bug).  [addDocumentToNamespace] takes [docId] out of
    [documentData] before the rest becomes the chunk metadata, so no chunk
    it writes has a [docId] in its metadata (the cached chunks neither);
    deleting and resetting keep that.  On such a graph, a search with
    [excludeDocIds] returns the same result, graph and trace as the search
    without exclusions: the filter on [JSON.parse(sourceDocument).docId]
    never removes anything.  Concretely, after adding document d1, a
    search excluding d1 returns its chunk. *)
Theorem C4_exclusion_never_applies :
  (forall env w ns dd path skipCache,
     meta_get "docId" (dd_metadata dd) = None ->
     (forall chunks, cachedVectorInformation env path = Some chunks ->
        Forall (fun c => meta_get "docId" (fst c) = None) chunks) ->
     no_docid_meta (db w) ->
     no_docid_meta (db (fst (addDocumentToNamespace ns dd path skipCache env w)))) /\
  (forall env w ns d, no_docid_meta (db w) ->
     no_docid_meta (db (fst (deleteDocumentFromNamespace ns d env w)))) /\
  (forall env w, no_docid_meta (db w) -> no_docid_meta (db (fst (reset env w)))) /\
  (forall env w a, driver w = true -> no_docid_meta (db w) ->
     performSimilaritySearch a env w =
     performSimilaritySearch (mkSearchArgs (namespace a) (input a) (similarityThreshold a)
                                           (topN a) []) env w) /\
  snd (performSimilaritySearch (args "acme" (1#4) 4 ["d1"]) env0
         (fst (addDocumentToNamespace "acme" (mkDocumentData "hello" "d1" [("title", "x")])
                 None false env0 (world_of db_empty))))
  = Normal (SResult (mkSearchResult [Some "hello"] [[("title", "x"); ("text", "hello")]]
                       [None] [[None]] None)).
Proof.
  split; [intros env w ns dd path skipCache Hm Hc; apply add_keeps_no_docid; assumption|].
  split; [intros env w ns d; apply keeps_no_docid_delete|].
  split; [intros env w; apply keeps_no_docid_reset|].
  split; [exact search_ignores_exclusion|].
  vm_compute. reflexivity.
Qed.
